(** * Deposit aggregation engine of [src/utils/solana.ts]

    A shallow embedding of [getUserStakedAmount]: the per-wallet memo
    [stakedAmountCache], the batched retrieval of parsed transactions and
    the summation of positive USDT balance deltas credited to the
    incubator wallet.

    Modelling choices.
    - A JavaScript [number] holding a token amount is an IEEE 754 binary64
      value: [PrimFloat.float], with the primitive [add], [sub] and [ltb].
    - [Date.now()] and the timestamps stored in the cache are integral
      millisecond counts: [Z].
    - [Map<string, CacheEntry>] is a [gmap string CacheEntry];
      [processedTxs], a [Set<string>] that at run time also holds
      [undefined], is a [gset (option string)].
    - The asynchronous function is a state-and-exception computation over
      a [World] holding the module-level cache and the log of requests
      issued to the RPC connection.
    - [SOLANA_CONSTANTS] (module [./constants]) and the [PublicKey]
      constructor (package [@solana/web3.js]) are parameters.

    The click handler [handleDeposit] of the [Incubator] component is
    embedded as well, as a function from the React state at the click to
    the state it leaves and the service calls it makes. *)

From Stdlib Require Import ZArith Lia PrimFloat.
From stdpp Require Import base option strings list gmap.

Set Default Proof Using "Type".

(** ** Data model *)

(** [interface CacheEntry { amount: number; timestamp: number }] *)
Record CacheEntry := mkCacheEntry { amount : float; timestamp : Z }.

(** The members of [SOLANA_CONSTANTS] the function reads.  The two public
    keys are represented by their [toString()] (base58) rendering. *)
Record SolanaConstants := {
  CACHE_DURATION : Z;
  INCUBATOR_WALLET : string;
  USDT_MINT : string
}.

(** The fields of the RPC reply types that the function reads. *)
Record UiTokenAmount := { uiAmount : option float }.

Record TokenBalance := {
  accountIndex : Z;
  owner : option string;
  mint : string;
  uiTokenAmount : UiTokenAmount
}.

Record ParsedAccountKey := { pubkey : string }.
Record ParsedMessage := { accountKeys : list ParsedAccountKey }.
Record ParsedTransaction := { message : ParsedMessage }.

Record ParsedTransactionMeta := {
  postTokenBalances : option (list TokenBalance);
  preTokenBalances : option (list TokenBalance)
}.

(** A reply of [getParsedTransaction].  [signature] is what the
    expression [tx.signature] of lines 56-57 evaluates to.  The reply type
    of [@solana/web3.js] declares no such member (the signatures of a
    transaction are under [transaction.signatures]), so for the replies of
    the library the expression is [undefined]: [None]. *)
Record ParsedTransactionWithMeta := {
  signature : option string;
  transaction : ParsedTransaction;
  meta : option ParsedTransactionMeta
}.

(** An element of the array returned by [getSignaturesForAddress]; only
    its [signature] member is read. *)
Record ConfirmedSignatureInfo := { info_signature : string }.

(** ** Completions, the connection and the world *)

(** A thrown JavaScript value, identified by its message. *)
Definition error := string.

Inductive Completion (A : Type) :=
  | Return (a : A)
  | Throw (e : error).
Arguments Return {A} a.
Arguments Throw {A} e.

(** The two RPC methods used, as the replies the ledger gives during one
    call: a resolved value or a rejection.  [getParsedTransaction]
    resolves to [null] ([None]) for an unknown signature.

    [settlesFirst] is the timing of the network, which the program does
    not control: given the reasons of the rejected requests of a batch, in
    request order, the position among them of the rejection that settles
    first.  A position beyond the list stands for the first of them. *)
Record Connection := {
  getSignaturesForAddress : string -> nat -> Completion (list ConfirmedSignatureInfo);
  getParsedTransaction : string -> Completion (option ParsedTransactionWithMeta);
  settlesFirst : list error -> nat
}.

Inductive RpcCall :=
  | CallGetSignaturesForAddress (address : string) (limit : nat)
  | CallGetParsedTransaction (sig : string).

Record World := mkWorld {
  stakedAmountCache : gmap string CacheEntry;
  rpcLog : list RpcCall
}.

(** ** The computation monad *)

(** A computation of one call of an [async] function that runs on its
    own: from the world at its start to its completion and the world it
    leaves.  The [await]s of lines 32 and 46 are not yield points here, so
    what other calls of [getUserStakedAmount] do to the cache while this
    one waits for a reply is outside the model; the properties below are
    about a call that no other call overlaps, and about sequences of such
    calls. *)
Definition Async (A : Type) : Type := World -> Completion A * World.

Definition ret {A} (a : A) : Async A := fun w => (Return a, w).

Definition throw {A} (e : error) : Async A := fun w => (Throw e, w).

Definition bind {A B} (m : Async A) (k : A -> Async B) : Async B :=
  fun w =>
    match m w with
    | (Return a, w') => k a w'
    | (Throw e, w') => (Throw e, w')
    end.

(** [try { m } catch (error) { h error }] *)
Definition try_catch {A} (m : Async A) (h : error -> Async A) : Async A :=
  fun w =>
    match m w with
    | (Return a, w') => (Return a, w')
    | (Throw e, w') => h e w'
    end.

(** A synchronous operation that completes without touching the world. *)
Definition lift {A} (c : Completion A) : Async A := fun w => (c, w).

(** The computations are written with stdpp's monadic notations
    [x ← m; k] and [m ;; k]. *)
#[global] Instance Async_ret : MRet Async := @ret.
#[global] Instance Async_bind : MBind Async := fun A B k m => bind m k.

(** *** Cache operations *)

Definition cache_update (f : gmap string CacheEntry -> gmap string CacheEntry)
    : Async unit :=
  fun w => (Return tt, mkWorld (f (stakedAmountCache w)) (rpcLog w)).

(** [stakedAmountCache.get(key)] *)
Definition cache_get (key : string) : Async (option CacheEntry) :=
  fun w => (Return (stakedAmountCache w !! key), w).

(** [stakedAmountCache.set(key, entry)] *)
Definition cache_set (key : string) (entry : CacheEntry) : Async unit :=
  cache_update (fun m => <[key := entry]> m).

(** *** Requests *)

Definition log_call (c : RpcCall) : Async unit :=
  fun w => (Return tt, mkWorld (stakedAmountCache w) (rpcLog w ++ [c])).

Definition rpc_getSignaturesForAddress (connection : Connection)
    (address : string) (limit : nat) : Async (list ConfirmedSignatureInfo) :=
  log_call (CallGetSignaturesForAddress address limit) ;;
  lift (getSignaturesForAddress connection address limit).

Definition rpc_getParsedTransaction (connection : Connection) (sig : string)
    : Async (option ParsedTransactionWithMeta) :=
  log_call (CallGetParsedTransaction sig) ;;
  lift (getParsedTransaction connection sig).

(** The reasons of the rejected members, and the values of the resolved
    ones, in list order. *)
Definition rejections {A} (rs : list (Completion A)) : list error :=
  omap (fun r => match r with Throw e => Some e | Return _ => None end) rs.

Definition resolutions {A} (rs : list (Completion A)) : list A :=
  omap (fun r => match r with Return a => Some a | Throw _ => None end) rs.

(** What [Promise.all] settles to, given how its members settle: the list
    of their values when all resolve, and otherwise the rejection that
    settles first, which [first] picks among the rejections. *)
Definition settle {A} (first : list error -> nat) (rs : list (Completion A))
    : Completion (list A) :=
  match rejections rs with
  | [] => Return (resolutions rs)
  | e :: es => Throw (List.nth (first (e :: es)) (e :: es) e)
  end.

(** Creating the promises of a list: every request is issued, in order,
    whether or not an earlier one will be rejected. *)
Fixpoint issue_all {A} (ps : list (Async A)) : World -> list (Completion A) * World :=
  match ps with
  | [] => fun w => ([], w)
  | p :: ps' =>
      fun w =>
        let (r, w1) := p w in
        let (rs, w2) := issue_all ps' w1 in
        (r :: rs, w2)
  end.

(** [await Promise.all(ps)] *)
Definition promise_all {A} (first : list error -> nat) (ps : list (Async A))
    : Async (list A) :=
  fun w => let (rs, w') := issue_all ps w in (settle first rs, w').

(** ** The aggregation (lines 55-83) *)

(** [x || 0] on a [number | null | undefined]: [null], [undefined], [NaN]
    and both zeros are falsy. *)
Definition or_zero (x : option float) : float :=
  match x with
  | Some v => if is_nan v || is_zero v then zero else v
  | None => zero
  end.

(** [l || []] *)
Definition or_empty {A} (l : option (list A)) : list A := default [] l.

Section Aggregation.

Variable SOLANA_CONSTANTS : SolanaConstants.

(** [post.owner === INCUBATOR_WALLET.toString() &&
     post.mint === USDT_MINT.toString()] *)
Definition creditsIncubator (post : TokenBalance) : bool :=
  match owner post with
  | Some o => String.eqb o (INCUBATOR_WALLET SOLANA_CONSTANTS)
  | None => false
  end && String.eqb (mint post) (USDT_MINT SOLANA_CONSTANTS).

(** [preBalances.find(b => b.accountIndex === post.accountIndex)] *)
Definition findPre (preBalances : list TokenBalance) (post : TokenBalance)
    : option TokenBalance :=
  List.find (fun b => Z.eqb (accountIndex b) (accountIndex post)) preBalances.

(** [pre?.uiTokenAmount.uiAmount || 0] *)
Definition preAmountOf (pre : option TokenBalance) : float :=
  or_zero (pre ≫= fun b => uiAmount (uiTokenAmount b)).

(** [post.uiTokenAmount.uiAmount || 0] *)
Definition postAmountOf (post : TokenBalance) : float :=
  or_zero (uiAmount (uiTokenAmount post)).

(** Lines 77-79: [if (postAmount > preAmount) total += postAmount - preAmount]. *)
Definition addPositiveDelta (total preAmount postAmount : float) : float :=
  if ltb preAmount postAmount
  then add total (sub postAmount preAmount)
  else total.

(** Body of [for (const post of postBalances)] (lines 69-81). *)
Definition processBalance (preBalances : list TokenBalance) (total : float)
    (post : TokenBalance) : float :=
  if creditsIncubator post then
    let pre := findPre preBalances post in
    let preAmount := preAmountOf pre in
    let postAmount := postAmountOf post in
    addPositiveDelta total preAmount postAmount
  else total.

(** [tx.transaction.message.accountKeys.some(
      key => key.pubkey.toString() === walletAddress)] *)
Definition isFromUser (walletAddress : string) (tx : ParsedTransactionWithMeta) : bool :=
  existsb (fun key => String.eqb (pubkey key) walletAddress)
          (accountKeys (message (transaction tx))).

(** Body of [for (const tx of transactions)] (lines 55-83) on the pair of
    locals [(total, processedTxs)]. *)
Definition processTransaction (walletAddress : string)
    (st : float * gset (option string)) (tx : option ParsedTransactionWithMeta)
    : float * gset (option string) :=
  match tx with
  | None => st
  | Some t =>
      match meta t with
      | None => st
      | Some m =>
          if bool_decide (signature t ∈ st.2) then st
          else
            let processedTxs := {[signature t]} ∪ st.2 in
            if isFromUser walletAddress t then
              let postBalances := or_empty (postTokenBalances m) in
              let preBalances := or_empty (preTokenBalances m) in
              (fold_left (processBalance preBalances) postBalances st.1,
               processedTxs)
            else (st.1, processedTxs)
      end
  end.

Definition processTransactions (walletAddress : string)
    (transactions : list (option ParsedTransactionWithMeta))
    (st : float * gset (option string)) : float * gset (option string) :=
  fold_left (processTransaction walletAddress) transactions st.

End Aggregation.

(** ** The orchestrator (lines 12-104) *)

(** [const batchSize = 10] *)
Definition batchSize : nat := 10.

(** [l.slice(start, stop)] for [start <= stop]. *)
Definition slice {A} (l : list A) (start stop : nat) : list A :=
  take (stop - start) (drop start l).

Section Orchestrator.

Variable SOLANA_CONSTANTS : SolanaConstants.

(** [new PublicKey(walletAddress)]: the constructor either builds a key
    or throws; the key it builds is not used afterwards. *)
Variable newPublicKey : string -> Completion unit.

(** Lines 16-20: delete every entry with
    [now - entry.timestamp > CACHE_DURATION]. *)
Definition purge (now : Z) (cache : gmap string CacheEntry)
    : gmap string CacheEntry :=
  filter (fun kv => ¬ (CACHE_DURATION SOLANA_CONSTANTS < now - timestamp kv.2)%Z)
         cache.

Definition purgeExpired (now : Z) : Async unit := cache_update (purge now).

(** The [for (let i = 0; i < signatures.length; i += batchSize)] loop
    (lines 43-84) from index [i] on.  [fuel] bounds the number of
    iterations; [length signatures] always suffices
    (lemma [batchLoop_fuel]). *)
Fixpoint batchLoop (fuel : nat) (connection : Connection)
    (walletAddress : string) (signatures : list ConfirmedSignatureInfo)
    (i : nat) (st : float * gset (option string)) : Async (float * gset (option string)) :=
  match fuel with
  | O => mret st
  | S fuel' =>
      if bool_decide (i < length signatures) then
        let batch := slice signatures i (i + batchSize) in
        transactions ← promise_all (settlesFirst connection)
          (map (fun s => rpc_getParsedTransaction connection (info_signature s))
               batch);
        batchLoop fuel' connection walletAddress signatures (i + batchSize)
          (processTransactions SOLANA_CONSTANTS walletAddress transactions st)
      else mret st
  end.

(** Lines 29-84: the part of the [try] block that computes [total]. *)
Definition fetchStakedTotal (connection : Connection) (walletAddress : string)
    : Async float :=
  lift (newPublicKey walletAddress) ;;
  signatures ← rpc_getSignaturesForAddress connection
                 (INCUBATOR_WALLET SOLANA_CONSTANTS) 1000;
  st ← batchLoop (length signatures) connection walletAddress signatures 0
         (zero, ∅);
  mret st.1.

(** Lines 28-103: the [try] block and its [catch] handler.  The
    [console.error] of the handler has no effect on the result. *)
Definition fetchOrFallback (connection : Connection) (walletAddress : string)
    (now : Z) : Async float :=
  try_catch
    (total ← fetchStakedTotal connection walletAddress;
     cache_set walletAddress {| amount := total; timestamp := now |} ;;
     mret total)
    (fun error =>
       cached ← cache_get walletAddress;
       match cached with
       | Some c => mret (amount c)
       | None => throw error
       end).

(** [getUserStakedAmount(connection, walletAddress)], with the value
    [now] that [Date.now()] yields on line 13. *)
Definition getUserStakedAmount (connection : Connection)
    (walletAddress : string) (now : Z) : Async float :=
  purgeExpired now ;;
  cached ← cache_get walletAddress;
  match cached with
  | Some c =>
      if bool_decide (now - timestamp c < CACHE_DURATION SOLANA_CONSTANTS)%Z
      then mret (amount c)
      else fetchOrFallback connection walletAddress now
  | None => fetchOrFallback connection walletAddress now
  end.

End Orchestrator.

(** ** The outcome of the fetch pipeline *)

(** What [Promise.all] over the detail requests of a list of signatures
    settles to: the parsed transactions in order when every request
    resolves, the rejection that settles first otherwise. *)
Definition fetchedTransactions (connection : Connection)
    (signatures : list ConfirmedSignatureInfo)
    : Completion (list (option ParsedTransactionWithMeta)) :=
  settle (settlesFirst connection)
    (map (fun s => getParsedTransaction connection (info_signature s))
         signatures).

Section Outcome.

Variable SOLANA_CONSTANTS : SolanaConstants.
Variable newPublicKey : string -> Completion unit.

(** What lines 29-84 complete with: the completion of [fetchStakedTotal].
    It is determined by the constructor and the connection and does not
    depend on the world the call runs in (lemma
    [fetchStakedTotal_outcome]), so it is read off a run in the empty
    world. *)
Definition pipelineOutcome (connection : Connection) (walletAddress : string)
    : Completion float :=
  (fetchStakedTotal SOLANA_CONSTANTS newPublicKey connection walletAddress
     (mkWorld ∅ [])).1.

(** The requests the pipeline issues: none when the key is rejected, and
    otherwise the listing first. *)
Definition pipelineCalls (walletAddress : string) (calls : list RpcCall) : Prop :=
  match newPublicKey walletAddress with
  | Throw _ => calls = []
  | Return _ =>
      exists rest,
        calls = CallGetSignaturesForAddress (INCUBATOR_WALLET SOLANA_CONSTANTS) 1000
                :: rest
  end.

(** The worlds the module can be in: the cache starts empty and is only
    touched by calls of [getUserStakedAmount], [stakedAmountCache] not
    being exported. *)
Inductive reachable : World -> Prop :=
  | reachable_start : reachable (mkWorld ∅ [])
  | reachable_call w connection walletAddress now :
      reachable w ->
      reachable (getUserStakedAmount SOLANA_CONSTANTS newPublicKey
                   connection walletAddress now w).2.

(** Every key of the cache is accepted by the [PublicKey] constructor. *)
Definition keysWellFormed (cache : gmap string CacheEntry) : Prop :=
  forall key entry, cache !! key = Some entry -> newPublicKey key = Return tt.

End Outcome.

(** ** Sample data *)

Module Sample.

Definition constants : SolanaConstants :=
  {| CACHE_DURATION := 300000; INCUBATOR_WALLET := "Incubator"; USDT_MINT := "USDT" |}.

(** A stand-in for the constructor: it rejects the empty string. *)
Definition publicKey (s : string) : Completion unit :=
  if String.eqb s "" then Throw "Invalid public key input" else Return tt.

Definition balance (index : Z) (o m : string) (a : option float) : TokenBalance :=
  {| accountIndex := index; owner := Some o; mint := m;
     uiTokenAmount := {| uiAmount := a |} |}.

Definition transfer (keys : list string)
    (pre post : list TokenBalance) : ParsedTransactionWithMeta :=
  {| signature := None;
     transaction := {| message := {| accountKeys := map Build_ParsedAccountKey keys |} |};
     meta := Some {| postTokenBalances := Some post; preTokenBalances := Some pre |} |}.

(** The incubator's USDT account goes 0 -> 50 -> 120 -> 90. *)
Definition tx1 : ParsedTransactionWithMeta :=
  transfer ["Alice"; "Incubator"]
    [balance 2 "Alice" "USDT" (Some 80%float); balance 1 "Incubator" "USDT" None]
    [balance 1 "Incubator" "USDT" (Some 50%float); balance 2 "Alice" "USDT" (Some 30%float)].

Definition tx2 : ParsedTransactionWithMeta :=
  transfer ["Alice"; "Incubator"]
    [balance 1 "Incubator" "USDT" (Some 50%float)]
    [balance 1 "Incubator" "USDT" (Some 120%float)].

Definition tx3 : ParsedTransactionWithMeta :=
  transfer ["Bob"; "Incubator"]
    [balance 1 "Incubator" "USDT" (Some 120%float)]
    [balance 1 "Incubator" "USDT" (Some 90%float)].

(** A deposit of 25 in which Alice does not take part. *)
Definition tx4 : ParsedTransactionWithMeta :=
  transfer ["Bob"; "Incubator"]
    [balance 1 "Incubator" "USDT" (Some 90%float)]
    [balance 1 "Incubator" "USDT" (Some 115%float)].

Definition ledger (sig : string) : Completion (option ParsedTransactionWithMeta) :=
  if String.eqb sig "sig1" then Return (Some tx1)
  else if String.eqb sig "sig2" then Return (Some tx2)
  else if String.eqb sig "sig3" then Return (Some tx3)
  else if String.eqb sig "sig4" then Return (Some tx4)
  else Return None.

(** A connection that answers, listing [sig1] twice. *)
Definition online : Connection :=
  {| getSignaturesForAddress := fun _ _ =>
       Return (map Build_ConfirmedSignatureInfo ["sig1"; "sig2"; "sig1"; "sig3"; "sig4"]);
     getParsedTransaction := ledger;
     settlesFirst := fun _ => 0 |}.

(** A connection whose every request is rejected. *)
Definition offline : Connection :=
  {| getSignaturesForAddress := fun _ _ => Throw "429 Too Many Requests";
     getParsedTransaction := fun _ => Throw "429 Too Many Requests";
     settlesFirst := fun _ => 0 |}.

Definition emptyWorld : World := mkWorld ∅ [].

(** The world after Alice's total was computed at time 1000. *)
Definition afterAlice : World :=
  (getUserStakedAmount constants publicKey online "Alice" 1000 emptyWorld).2.

(** A world whose cache holds the entry [(70, 0)] for Alice. *)
Definition cached70 : World :=
  mkWorld {[ "Alice" := {| amount := 70%float; timestamp := 0 |} ]} [].

End Sample.

(** ** Definitions used by further properties of [getUserStakedAmount] *)

(** The test [!tx?.meta] of line 56 fails: the record is present and
    carries metadata. *)
Definition hasMeta (tx : option ParsedTransactionWithMeta) : bool :=
  match tx with
  | Some t => match meta t with Some _ => true | None => false end
  | None => false
  end.

(** A record as [getParsedTransaction] of the library delivers it, or no
    record: [tx.signature] is [undefined]. *)
Definition noSignature (tx : option ParsedTransactionWithMeta) : Prop :=
  match tx with
  | Some t => signature t = None
  | None => True
  end.

(** The wallet is among the account keys of no present record. *)
Definition neverFromUser (walletAddress : string)
    (transactions : list (option ParsedTransactionWithMeta)) : Prop :=
  Forall (fun tx => match tx with
                    | Some t => isFromUser walletAddress t = false
                    | None => True
                    end) transactions.

(** Requests for the parsed transactions of a list of signatures. *)
Definition detailCalls (signatures : list ConfirmedSignatureInfo) : list RpcCall :=
  map (fun s => CallGetParsedTransaction (info_signature s)) signatures.

(** The test of line 24 fails at time [now]: the wallet has no entry, or
    one that is not younger than [CACHE_DURATION]. *)
Definition notFresh (SOLANA_CONSTANTS : SolanaConstants) (now : Z)
    (cache : gmap string CacheEntry) (walletAddress : string) : Prop :=
  match cache !! walletAddress with
  | Some c => (CACHE_DURATION SOLANA_CONSTANTS <= now - timestamp c)%Z
  | None => True
  end.

(** One call of [getUserStakedAmount]: its arguments and the time that
    [Date.now()] gives it. *)
Record Call := mkCall {
  call_connection : Connection;
  call_wallet : string;
  call_now : Z
}.

Section History.

Variable SOLANA_CONSTANTS : SolanaConstants.
Variable newPublicKey : string -> Completion unit.

(** The world reached from the empty cache by calls made one after
    another, the latest at the head of the list. *)
Inductive reachedBy : list Call -> World -> Prop :=
  | reachedBy_start : reachedBy [] (mkWorld ∅ [])
  | reachedBy_call calls w call :
      reachedBy calls w ->
      reachedBy (call :: calls)
        (getUserStakedAmount SOLANA_CONSTANTS newPublicKey
           (call_connection call) (call_wallet call) (call_now call) w).2.

End History.

(** ** The deposit form ([handleDeposit] of the [Incubator] component) *)

Module Incubator.

(** The [useState] cells that [handleDeposit] reads or sets. *)
Record State := mkState {
  amount : string;
  isDepositing : bool;
  error : option string;
  success : option string
}.

Definition setAmount (v : string) (s : State) : State :=
  mkState v (isDepositing s) (error s) (success s).
Definition setIsDepositing (v : bool) (s : State) : State :=
  mkState (amount s) v (error s) (success s).
Definition setError (v : option string) (s : State) : State :=
  mkState (amount s) (isDepositing s) v (success s).
Definition setSuccess (v : option string) (s : State) : State :=
  mkState (amount s) (isDepositing s) (error s) v.

Section Handler.

(** What the component imports: the wallet context, the transaction
    service and the balance hook, and the two built-in conversions
    [parseFloat] and number-to-string of the template literal. *)
Variables Wallet PublicKey Transaction : Type.
Variable parseFloat : string -> float.
Variable numberToString : float -> string.
Variable createUSDTTransferTransaction : Wallet -> float -> Completion Transaction.
Variable sendAndConfirmTransaction : Wallet -> Transaction -> Completion string.
Variable refetch : Completion unit.

(** The calls made to the imported services. *)
Inductive Effect :=
  | CreateTransfer (wallet : Wallet) (depositAmount : float)
  | SendAndConfirm (wallet : Wallet) (transaction : Transaction)
  | Refetch.

(** The [try] block: the message of the thrown error if any, the state
    and the calls made. *)
Definition depositAttempt (wallet : Wallet) (depositAmount : float) (s : State)
    : option string * State * list Effect :=
  match createUSDTTransferTransaction wallet depositAmount with
  | Throw err => (Some err, s, [CreateTransfer wallet depositAmount])
  | Return transaction =>
      match sendAndConfirmTransaction wallet transaction with
      | Throw err =>
          (Some err, s,
           [CreateTransfer wallet depositAmount; SendAndConfirm wallet transaction])
      | Return _ =>
          let s1 :=
            setSuccess
              (Some ("Successfully deposited " +:+ numberToString depositAmount
                     +:+ " USDT")) s in
          let s2 := setAmount "" s1 in
          (match refetch with Return _ => None | Throw err => Some err end,
           s2,
           [CreateTransfer wallet depositAmount; SendAndConfirm wallet transaction;
            Refetch])
      end
  end.

(** [handleDeposit]: the state after the handler has run and the calls it
    made, from the wallet context and the state at the click. *)
Definition handleDeposit (wallet : option Wallet) (publicKey : option PublicKey)
    (s : State) : State * list Effect :=
  match wallet, publicKey with
  | Some wl, Some _ =>
      let depositAmount := parseFloat (amount s) in
      if is_nan depositAmount || PrimFloat.leb depositAmount zero then
        (setError (Some "Please enter a valid amount") s, [])
      else
        let s1 := setSuccess None (setError None (setIsDepositing true s)) in
        let '(thrown, s2, effects) := depositAttempt wl depositAmount s1 in
        let s3 := match thrown with
                  | Some err => setError (Some err) s2
                  | None => s2
                  end in
        (setIsDepositing false s3, effects)
  | _, _ => (setError (Some "Please connect your wallet first") s, [])
  end.

End Handler.

Arguments CreateTransfer {Wallet Transaction} wallet depositAmount.
Arguments SendAndConfirm {Wallet Transaction} wallet transaction.
Arguments Refetch {Wallet Transaction}.

End Incubator.

(** ** Further sample data *)

Module Sample2.

(** Twelve listed signatures; the requests for the last two are rejected,
    and the rejection of the twelfth settles before that of the eleventh. *)
Definition listing12 : list ConfirmedSignatureInfo :=
  map Build_ConfirmedSignatureInfo (replicate 10 "sig2" ++ ["sig3"; "sig9"]).

Definition flaky : Connection :=
  {| getSignaturesForAddress := fun _ _ => Return listing12;
     getParsedTransaction := fun sig =>
       if String.eqb sig "sig3" then Throw "timeout"
       else if String.eqb sig "sig9" then Throw "429 Too Many Requests"
       else Sample.ledger sig;
     settlesFirst := fun _ => 1 |}.

(** A connection that lists only transactions of Bob. *)
Definition bobOnly : Connection :=
  {| getSignaturesForAddress := fun _ _ =>
       Return (map Build_ConfirmedSignatureInfo ["sig4"; "sig3"; "unknown"]);
     getParsedTransaction := Sample.ledger;
     settlesFirst := fun _ => 0 |}.

(** The record of [tx1] as an RPC node without metadata reports it. *)
Definition tx1_no_meta : ParsedTransactionWithMeta :=
  {| signature := None;
     transaction := transaction Sample.tx1;
     meta := None |}.

(** Another record with the [signature] of [tx2], crediting 1000. *)
Definition tx2_forged : ParsedTransactionWithMeta :=
  Sample.transfer ["Alice"; "Incubator"]
    [Sample.balance 1 "Incubator" "USDT" None]
    [Sample.balance 1 "Incubator" "USDT" (Some 1000%float)].

(** A cache with an entry of Bob written at time 0 and one of Carol
    written at time 200000. *)
Definition twoUsers : World :=
  mkWorld (<[ "Bob" := {| amount := 5%float; timestamp := 0 |} ]>
             {[ "Carol" := {| amount := 9%float; timestamp := 200000 |} ]}) [].

(** Stand-ins for the services of the deposit form. *)
Definition parse (s : string) : float :=
  if String.eqb s "25" then 25%float
  else if String.eqb s "-5" then (-5)%float
  else nan.

Definition show (x : float) : string := "25".

Definition create (wallet : string) (x : float) : Completion string :=
  if String.eqb wallet "locked" then Throw "Wallet is locked" else Return "transfer".

Definition send (wallet : string) (t : string) : Completion string :=
  Return "signature".

Definition idle (a : string) : Incubator.State :=
  Incubator.mkState a false None (Some "Successfully deposited 25 USDT").

(** The deposit form with the stand-in services. *)
Definition form :=
  Incubator.handleDeposit string string string parse show create send (Return tt).

End Sample2.

(** * Properties of the aggregation *)

Section AggregationFacts.

Variable SOLANA_CONSTANTS : SolanaConstants.

Abbreviation K := SOLANA_CONSTANTS.

Implicit Types (st : float * gset (option string)) (tx : option ParsedTransactionWithMeta).
Implicit Types (t : ParsedTransactionWithMeta) (walletAddress : string).

Lemma processTransactions_app walletAddress l1 l2 st :
  processTransactions K walletAddress (l1 ++ l2) st
  = processTransactions K walletAddress l2 (processTransactions K walletAddress l1 st).
Proof. apply fold_left_app. Qed.

Lemma processTransactions_cons walletAddress tx l st :
  processTransactions K walletAddress (tx :: l) st
  = processTransactions K walletAddress l (processTransaction K walletAddress st tx).
Proof. reflexivity. Qed.

(** A transaction whose signature is in [processedTxs] changes nothing. *)
Lemma processTransaction_seen walletAddress st t :
  signature t ∈ st.2 -> processTransaction K walletAddress st (Some t) = st.
Proof.
  intros Hin. unfold processTransaction.
  destruct (meta t); [|done]. by rewrite bool_decide_eq_true_2.
Qed.

(** [processedTxs] only grows. *)
Lemma processTransaction_mono walletAddress st tx :
  st.2 ⊆ (processTransaction K walletAddress st tx).2.
Proof.
  unfold processTransaction.
  destruct tx as [t|]; [|done]. destruct (meta t); [|done].
  case_bool_decide; [done|].
  destruct (isFromUser walletAddress t); simpl; set_solver.
Qed.

Lemma processTransactions_mono walletAddress l st :
  st.2 ⊆ (processTransactions K walletAddress l st).2.
Proof.
  revert st. induction l as [|tx l IH]; intros st; [done|].
  rewrite processTransactions_cons. etrans; [|apply IH].
  apply processTransaction_mono.
Qed.

(** A transaction with metadata is in [processedTxs] once it was visited. *)
Lemma processTransaction_records walletAddress st t :
  is_Some (meta t) ->
  signature t ∈ (processTransaction K walletAddress st (Some t)).2.
Proof.
  intros [m Hm]. unfold processTransaction. rewrite Hm.
  case_bool_decide; [done|].
  destruct (isFromUser walletAddress t); simpl; set_solver.
Qed.

(** Visiting a record again, after any further records, is a no-op. *)
Lemma processTransaction_again walletAddress st tx l :
  let st' := processTransactions K walletAddress l
               (processTransaction K walletAddress st tx) in
  processTransaction K walletAddress st' tx = st'.
Proof.
  intros st'. destruct tx as [t|]; [|done].
  destruct (meta t) as [m|] eqn:Hm.
  - apply processTransaction_seen. subst st'.
    eapply processTransactions_mono, processTransaction_records. by rewrite Hm.
  - unfold processTransaction. by rewrite Hm.
Qed.

(** A record that occurs a second time in the list of transaction
    details, at whatever distance from its first occurrence, is skipped:
    the running total and the set of processed signatures end up exactly as
    for the list without the second occurrence. *)
Lemma repeated_transaction_skipped walletAddress tx l1 l2 l3 st :
  processTransactions K walletAddress (l1 ++ tx :: l2 ++ tx :: l3) st
  = processTransactions K walletAddress (l1 ++ tx :: l2 ++ l3) st.
Proof.
  rewrite !processTransactions_app, !processTransactions_cons.
  rewrite !processTransactions_app, processTransactions_cons.
  by rewrite processTransaction_again.
Qed.

(** Once [undefined] is in [processedTxs], records without a signature
    are all skipped. *)
Lemma processTransactions_undefined_seen walletAddress l st :
  None ∈ st.2 ->
  Forall noSignature l ->
  processTransactions K walletAddress l st = st.
Proof.
  intros Hseen Hl. induction Hl as [|tx l Htx _ IH]; [done|].
  rewrite processTransactions_cons.
  replace (processTransaction K walletAddress st tx) with st; [done|].
  destruct tx as [t|]; [|done]. simpl in Htx.
  symmetry. apply processTransaction_seen. by rewrite Htx.
Qed.

(** C6, as the code has it.  The replies of [getParsedTransaction] carry
    no [signature], so [processedTxs] holds [undefined] once the first
    record with metadata has been visited, and every later record is then
    skipped as already processed: the aggregation of a list of replies is
    the contribution of its first record with metadata alone.  A record
    that is listed twice after another one is counted not once but
    never. *)
Theorem records_after_first_never_counted walletAddress a l st :
  is_Some (meta a) ->
  signature a = None ->
  Forall noSignature l ->
  processTransactions K walletAddress (Some a :: l) st
  = processTransaction K walletAddress st (Some a).
Proof.
  intros Hmeta Hsig Hl. rewrite processTransactions_cons.
  apply processTransactions_undefined_seen; [|done].
  rewrite <- Hsig. by apply processTransaction_records.
Qed.

(** C7. A transaction whose account keys do not include the wallet leaves
    the running total as it was, whatever its token balances are. *)
Theorem non_participant_contributes_nothing walletAddress st t :
  isFromUser walletAddress t = false ->
  (processTransaction K walletAddress st (Some t)).1 = st.1.
Proof.
  intros Hno. unfold processTransaction.
  destruct (meta t); [|done]. case_bool_decide; [done|]. by rewrite Hno.
Qed.

(** C8. For a post-balance entry of the incubator in USDT, the running
    total grows by [postAmount - preAmount] when [postAmount > preAmount],
    and is left untouched otherwise. *)
Theorem only_positive_delta_contributes preBalances total post :
  creditsIncubator K post = true ->
  let preAmount := preAmountOf (findPre preBalances post) in
  let postAmount := postAmountOf post in
  (ltb preAmount postAmount = true ->
   processBalance K preBalances total post = add total (sub postAmount preAmount))
  /\ (ltb preAmount postAmount = false ->
      processBalance K preBalances total post = total).
Proof.
  intros Hq preAmount postAmount. unfold processBalance.
  rewrite Hq. fold preAmount postAmount. unfold addPositiveDelta.
  split; intros ->; reflexivity.
Qed.

(** A transaction all of whose incubator entries fail the test
    [postAmount > preAmount] (withdrawals, no-ops) leaves the total as it
    was. *)
Lemma no_positive_delta_total_unchanged preBalances postBalances total :
  Forall (fun post =>
            creditsIncubator K post = true ->
            ltb (preAmountOf (findPre preBalances post)) (postAmountOf post) = false)
         postBalances ->
  fold_left (processBalance K preBalances) postBalances total = total.
Proof.
  induction 1 as [|post postBalances Hpost _ IH]; simpl; [done|].
  replace (processBalance K preBalances total post) with total; [done|].
  unfold processBalance, addPositiveDelta.
  destruct (creditsIncubator K post); [|done]. by rewrite Hpost.
Qed.

Lemma findPre_first l1 b l2 post :
  accountIndex b = accountIndex post ->
  Forall (fun b' => accountIndex b' <> accountIndex post) l1 ->
  findPre (l1 ++ b :: l2) post = Some b.
Proof.
  intros Hb Hl1. unfold findPre.
  induction Hl1 as [|b' l1 Hb' _ IH]; simpl.
  - by rewrite Hb, Z.eqb_refl.
  - by apply Z.eqb_neq in Hb' as ->.
Qed.

Lemma findPre_none l post :
  Forall (fun b' => accountIndex b' <> accountIndex post) l ->
  findPre l post = None.
Proof.
  unfold findPre. induction 1 as [|b' l Hb' _ IH]; simpl; [done|].
  by apply Z.eqb_neq in Hb' as ->.
Qed.

(** C9. For a post-balance entry of the incubator in USDT, the pre-balance
    amount is that of the first pre-balance entry carrying the same
    [accountIndex], wherever it sits in the list and whoever owns it; with
    no such entry the pre-balance amount is zero, and an amount that is
    [null] counts as zero on either side. *)
Theorem pre_balance_paired_by_accountIndex total post :
  creditsIncubator K post = true ->
  (forall l1 b l2,
      accountIndex b = accountIndex post ->
      Forall (fun b' => accountIndex b' <> accountIndex post) l1 ->
      processBalance K (l1 ++ b :: l2) total post
      = addPositiveDelta total (or_zero (uiAmount (uiTokenAmount b)))
                         (or_zero (uiAmount (uiTokenAmount post))))
  /\ (forall l,
      Forall (fun b' => accountIndex b' <> accountIndex post) l ->
      processBalance K l total post
      = addPositiveDelta total zero (or_zero (uiAmount (uiTokenAmount post))))
  /\ or_zero None = zero.
Proof.
  intros Hq. unfold processBalance. rewrite Hq.
  split; [|split; [|reflexivity]].
  - intros l1 b l2 Hb Hl1. by rewrite (findPre_first _ _ _ _ Hb Hl1).
  - intros l Hl. by rewrite (findPre_none _ _ Hl).
Qed.

End AggregationFacts.

(** * Properties of the orchestrator *)

(** Unfolds the monadic operations of a computation applied to a world. *)
Ltac run :=
  unfold mbind, mret, Async_bind, Async_ret, bind, ret, throw, lift,
    try_catch, cache_get, cache_set, cache_update, log_call; simpl.

Lemma settle_Return {A} first (rs : list (Completion A)) l :
  settle first rs = Return l <-> rejections rs = [] /\ l = resolutions rs.
Proof.
  unfold settle. destruct (rejections rs) as [|e es].
  - split; [by intros [= <-] | by intros [_ ->]].
  - split; [done | by intros [? _]].
Qed.

Lemma settle_app_Return {A} first (rs1 rs2 : list (Completion A)) l :
  settle first (rs1 ++ rs2) = Return l
  <-> exists l1 l2,
        settle first rs1 = Return l1 /\ settle first rs2 = Return l2
        /\ l = l1 ++ l2.
Proof.
  setoid_rewrite settle_Return. unfold rejections, resolutions.
  rewrite !omap_app. split.
  - intros [[H1 H2]%app_eq_nil ->]. eauto 10.
  - intros (l1 & l2 & [H1 ->] & [H2 ->] & ->). by rewrite H1, H2.
Qed.

(** A rejected [Promise.all] rejects with the reason of one of its
    rejected members. *)
Lemma settle_Throw {A} first (rs : list (Completion A)) e :
  settle first rs = Throw e -> Throw e ∈ rs.
Proof.
  unfold settle. destruct (rejections rs) as [|e0 es] eqn:Hrej; [done|].
  intros [= <-].
  assert (List.nth (first (e0 :: es)) (e0 :: es) e0 ∈ rejections rs) as Hin.
  { rewrite Hrej. apply list_elem_of_In.
    destruct (Nat.lt_ge_cases (first (e0 :: es)) (length (e0 :: es))) as [Hlt|Hge].
    - by apply nth_In.
    - rewrite nth_overflow by done. by left. }
  unfold rejections in Hin. apply list_elem_of_omap in Hin as (r & Hr & Hsome).
  destruct r as [a|e']; [done|]. by injection Hsome as <-.
Qed.

(** All requests of a list resolve exactly when those of both parts do. *)
Lemma fetchedTransactions_app_Return connection l1 l2 txs :
  fetchedTransactions connection (l1 ++ l2) = Return txs
  <-> exists txs1 txs2,
        fetchedTransactions connection l1 = Return txs1
        /\ fetchedTransactions connection l2 = Return txs2
        /\ txs = txs1 ++ txs2.
Proof. unfold fetchedTransactions. rewrite map_app. apply settle_app_Return. Qed.

Lemma fetchedTransactions_nil_inv connection txs :
  fetchedTransactions connection [] = Return txs -> txs = [].
Proof. by intros [= <-]. Qed.

Lemma detailCalls_app l1 l2 :
  detailCalls (l1 ++ l2) = detailCalls l1 ++ detailCalls l2.
Proof. apply map_app. Qed.

Lemma detailCalls_drop signatures i n :
  detailCalls (drop i signatures)
  = detailCalls (take n (drop i signatures))
    ++ detailCalls (drop (i + n) signatures).
Proof.
  rewrite <- (take_drop n (drop i signatures)) at 1.
  by rewrite detailCalls_app, drop_drop.
Qed.

Lemma issue_all_rpc connection batch w :
  issue_all
    (map (fun s => rpc_getParsedTransaction connection (info_signature s)) batch) w
  = (map (fun s => getParsedTransaction connection (info_signature s)) batch,
     mkWorld (stakedAmountCache w) (rpcLog w ++ detailCalls batch)).
Proof.
  revert w. induction batch as [|s batch IH]; intros w; simpl.
  - destruct w; simpl. by rewrite app_nil_r.
  - unfold rpc_getParsedTransaction at 1. run. rewrite IH. simpl.
    by rewrite <- app_assoc.
Qed.

(** One batch: all its requests are logged, and the batch settles as the
    replies and the timing of the connection have it. *)
Lemma promise_all_rpc connection batch w :
  promise_all (settlesFirst connection)
    (map (fun s => rpc_getParsedTransaction connection (info_signature s)) batch) w
  = (fetchedTransactions connection batch,
     mkWorld (stakedAmountCache w) (rpcLog w ++ detailCalls batch)).
Proof. unfold promise_all. by rewrite issue_all_rpc. Qed.

Section OrchestratorFacts.

Variable SOLANA_CONSTANTS : SolanaConstants.
Variable newPublicKey : string -> Completion unit.

Abbreviation K := SOLANA_CONSTANTS.
Abbreviation pipelineOutcome' := (pipelineOutcome SOLANA_CONSTANTS newPublicKey).

Implicit Types (w : World) (connection : Connection) (walletAddress : string).
Implicit Types (now : Z) (st : float * gset (option string)) (c : CacheEntry).

(** The batched loop leaves the cache alone and only appends to the
    request log; what it completes with and the requests it issues do not
    depend on the world. *)
Lemma batchLoop_world connection walletAddress signatures fuel i st :
  exists res calls, forall w,
    batchLoop K fuel connection walletAddress signatures i st w
    = (res, mkWorld (stakedAmountCache w) (rpcLog w ++ calls)).
Proof.
  revert i st. induction fuel as [|fuel IH]; intros i st.
  - exists (Return st), []. intros [cache log]. run. by rewrite app_nil_r.
  - simpl. case_bool_decide as Hi.
    + destruct (fetchedTransactions connection
                  (slice signatures i (i + batchSize))) as [txs|e] eqn:Hbatch.
      * destruct (IH (i + batchSize)
                    (processTransactions K walletAddress txs st))
          as (res & calls & Hrun).
        exists res, (detailCalls (slice signatures i (i + batchSize)) ++ calls).
        intros w. run. rewrite promise_all_rpc, Hbatch, Hrun. simpl.
        by rewrite <- app_assoc.
      * exists (Throw e), (detailCalls (slice signatures i (i + batchSize))).
        intros w. run. by rewrite promise_all_rpc, Hbatch.
    + exists (Return st), []. intros [cache log]. run. by rewrite app_nil_r.
Qed.

(** The fuel given by [fetchStakedTotal] always suffices: from
    [length signatures - i] on, more fuel changes nothing. *)
Lemma batchLoop_fuel connection walletAddress signatures fuel extra i st w :
  length signatures <= i + fuel ->
  batchLoop K (fuel + extra) connection walletAddress signatures i st w
  = batchLoop K fuel connection walletAddress signatures i st w.
Proof.
  revert i st w. induction fuel as [|fuel IH]; intros i st w Hfuel.
  - destruct extra as [|extra]; [done|]. simpl.
    by rewrite bool_decide_eq_false_2 by lia.
  - simpl. case_bool_decide as Hi; [|done]. run.
    destruct (promise_all _ _ w) as [[txs|e] w']; [|done].
    apply IH. unfold batchSize. lia.
Qed.

(** When every remaining request resolves, the loop issues exactly one
    request per remaining signature, in listing order. *)
Lemma batchLoop_ok connection walletAddress signatures fuel i st w txs :
  length signatures <= i + fuel ->
  fetchedTransactions connection (drop i signatures) = Return txs ->
  batchLoop K fuel connection walletAddress signatures i st w
  = (Return (processTransactions K walletAddress txs st),
     mkWorld (stakedAmountCache w)
       (rpcLog w ++ detailCalls (drop i signatures))).
Proof.
  revert i st w txs. induction fuel as [|fuel IH]; intros i st w txs Hfuel Hall.
  - rewrite drop_ge in Hall |- * by lia.
    apply fetchedTransactions_nil_inv in Hall as ->.
    destruct w; simpl. run. by rewrite app_nil_r.
  - simpl. case_bool_decide as Hi.
    + run. rewrite promise_all_rpc. unfold slice.
      replace (i + batchSize - i) with batchSize by lia.
      rewrite (detailCalls_drop signatures i batchSize).
      rewrite <- (take_drop batchSize (drop i signatures)), drop_drop in Hall.
      apply fetchedTransactions_app_Return in Hall
        as (txs1 & txs2 & -> & Hrest & ->).
      rewrite (IH _ _ _ txs2) by (done || unfold batchSize; lia). simpl.
      by rewrite processTransactions_app, <- app_assoc.
    + rewrite drop_ge in Hall |- * by lia.
      apply fetchedTransactions_nil_inv in Hall as ->.
      destruct w; simpl. run. by rewrite app_nil_r.
Qed.

(** When the first rejection falls into the batch after [j] resolved
    batches, the loop issues the requests of these [j + 1] batches and no
    other, and throws what that batch settles to. *)
Lemma batchLoop_rejected connection walletAddress signatures j :
  forall fuel i st w txs e,
  length signatures <= i + fuel ->
  fetchedTransactions connection (take (j * batchSize) (drop i signatures))
  = Return txs ->
  fetchedTransactions connection
    (take batchSize (drop (i + j * batchSize) signatures)) = Throw e ->
  batchLoop K fuel connection walletAddress signatures i st w
  = (Throw e,
     mkWorld (stakedAmountCache w)
       (rpcLog w ++ detailCalls (take (S j * batchSize) (drop i signatures)))).
Proof.
  induction j as [|j IH]; intros fuel i st w txs e Hfuel Hbefore Hrej.
  - replace (i + 0 * batchSize) with i in Hrej by lia.
    replace (1 * batchSize) with batchSize by lia.
    assert (i < length signatures) as Hi.
    { destruct (decide (i < length signatures)); [done|].
      rewrite drop_ge, take_nil in Hrej by lia. done. }
    destruct fuel as [|fuel]; [lia|]. simpl batchLoop.
    rewrite bool_decide_eq_true_2 by done.
    run. rewrite promise_all_rpc. unfold slice.
    replace (i + batchSize - i) with batchSize by lia.
    by rewrite Hrej.
  - assert (i < length signatures) as Hi.
    { destruct (decide (i < length signatures)); [done|].
      rewrite drop_ge, take_nil in Hrej by lia. done. }
    destruct fuel as [|fuel]; [lia|].
    replace (S (S j) * batchSize) with (batchSize + S j * batchSize) by lia.
    rewrite <- take_take_drop, drop_drop, detailCalls_app. simpl batchLoop.
    rewrite bool_decide_eq_true_2 by done.
    run. rewrite promise_all_rpc. unfold slice.
    replace (i + batchSize - i) with batchSize by lia.
    replace (S j * batchSize) with (batchSize + j * batchSize) in Hbefore by lia.
    rewrite <- take_take_drop, drop_drop in Hbefore.
    apply fetchedTransactions_app_Return in Hbefore
      as (txs1 & txs2 & -> & Hmid & ->).
    rewrite (IH fuel (i + batchSize) _ _ txs2 e).
    + simpl. by rewrite <- app_assoc.
    + unfold batchSize. lia.
    + done.
    + rewrite <- Hrej. do 3 f_equal. lia.
Qed.

Lemma fetchStakedTotal_world connection walletAddress :
  exists res calls,
    pipelineCalls K newPublicKey walletAddress calls
    /\ forall w,
         fetchStakedTotal K newPublicKey connection walletAddress w
         = (res, mkWorld (stakedAmountCache w) (rpcLog w ++ calls)).
Proof.
  unfold fetchStakedTotal, pipelineCalls, rpc_getSignaturesForAddress.
  destruct (newPublicKey walletAddress) as [[]|e].
  - destruct (getSignaturesForAddress connection (INCUBATOR_WALLET K) 1000)
      as [signatures|e].
    + destruct (batchLoop_world connection walletAddress signatures
                  (length signatures) 0 (zero, ∅)) as (res & calls & Hrun).
      exists (match res with Return st => Return st.1 | Throw e => Throw e end),
        (CallGetSignaturesForAddress (INCUBATOR_WALLET K) 1000 :: calls).
      split; [by eexists|]. intros w. run. rewrite Hrun. simpl.
      rewrite <- app_assoc. by destruct res.
    + exists (Throw e), [CallGetSignaturesForAddress (INCUBATOR_WALLET K) 1000].
      split; [by eexists|]. intros w. by run.
  - exists (Throw e), []. split; [done|]. intros [cache log]. run.
    by rewrite app_nil_r.
Qed.

Lemma fetchStakedTotal_run connection walletAddress w :
  exists calls,
    pipelineCalls K newPublicKey walletAddress calls
    /\ fetchStakedTotal K newPublicKey connection walletAddress w
       = (pipelineOutcome' connection walletAddress,
          mkWorld (stakedAmountCache w) (rpcLog w ++ calls)).
Proof.
  destruct (fetchStakedTotal_world connection walletAddress)
    as (res & calls & Hcalls & Hrun).
  exists calls. split; [done|]. unfold pipelineOutcome. by rewrite !Hrun.
Qed.

(** [fetchStakedTotal] completes with [pipelineOutcome] in every world. *)
Lemma fetchStakedTotal_outcome connection walletAddress w :
  (fetchStakedTotal K newPublicKey connection walletAddress w).1
  = pipelineOutcome' connection walletAddress.
Proof.
  by destruct (fetchStakedTotal_run connection walletAddress w) as (calls & _ & ->).
Qed.

(** A rejected key is the outcome of the pipeline; a pipeline that
    succeeds had its key accepted. *)
Lemma pipelineOutcome_key_rejected connection walletAddress e :
  newPublicKey walletAddress = Throw e ->
  pipelineOutcome' connection walletAddress = Throw e.
Proof.
  intros Hbad. unfold pipelineOutcome, fetchStakedTotal. run. by rewrite Hbad.
Qed.

Lemma pipelineOutcome_key_accepted connection walletAddress total :
  pipelineOutcome' connection walletAddress = Return total ->
  newPublicKey walletAddress = Return tt.
Proof.
  unfold pipelineOutcome, fetchStakedTotal. run.
  by destruct (newPublicKey walletAddress) as [[]|].
Qed.

(** The outcome when the key is accepted and every request resolves. *)
Lemma pipelineOutcome_resolved connection walletAddress signatures txs :
  newPublicKey walletAddress = Return tt ->
  getSignaturesForAddress connection (INCUBATOR_WALLET K) 1000 = Return signatures ->
  fetchedTransactions connection signatures = Return txs ->
  pipelineOutcome' connection walletAddress
  = Return (processTransactions K walletAddress txs (zero, ∅)).1.
Proof.
  intros Hkey Hlist Hall.
  unfold pipelineOutcome, fetchStakedTotal, rpc_getSignaturesForAddress. run.
  rewrite Hkey, Hlist.
  by rewrite (batchLoop_ok _ _ _ _ _ _ _ txs) by (done || lia).
Qed.

(** The [try] block followed by its handler: on success the entry is
    written and the total returned; on failure the cache is read, not
    written. *)
Lemma fetchOrFallback_run connection walletAddress now w :
  exists calls,
    pipelineCalls K newPublicKey walletAddress calls
    /\ fetchOrFallback K newPublicKey connection walletAddress now w
       = match pipelineOutcome' connection walletAddress with
         | Return total =>
             (Return total,
              mkWorld (<[walletAddress := {| amount := total; timestamp := now |}]>
                         (stakedAmountCache w))
                      (rpcLog w ++ calls))
         | Throw e =>
             (match stakedAmountCache w !! walletAddress with
              | Some c => Return (amount c)
              | None => Throw e
              end,
              mkWorld (stakedAmountCache w) (rpcLog w ++ calls))
         end.
Proof.
  destruct (fetchStakedTotal_run connection walletAddress w) as (calls & Hcalls & Hrun).
  exists calls. split; [done|]. unfold fetchOrFallback. run. rewrite Hrun.
  destruct (pipelineOutcome' connection walletAddress); simpl; [done|].
  by destruct (stakedAmountCache w !! walletAddress).
Qed.

Lemma getUserStakedAmount_unfold connection walletAddress now w :
  getUserStakedAmount K newPublicKey connection walletAddress now w
  = let w1 := mkWorld (purge K now (stakedAmountCache w)) (rpcLog w) in
    match stakedAmountCache w1 !! walletAddress with
    | Some c =>
        if bool_decide (now - timestamp c < CACHE_DURATION K)%Z
        then (Return (amount c), w1)
        else fetchOrFallback K newPublicKey connection walletAddress now w1
    | None => fetchOrFallback K newPublicKey connection walletAddress now w1
    end.
Proof.
  unfold getUserStakedAmount, purgeExpired. run.
  destruct (purge K now (stakedAmountCache w) !! walletAddress) as [c|]; [|done].
  by case_bool_decide.
Qed.

(** An entry that is not fresh sends the call into the [try] block. *)
Lemma getUserStakedAmount_miss connection walletAddress now w :
  (forall c, purge K now (stakedAmountCache w) !! walletAddress = Some c ->
             (CACHE_DURATION K <= now - timestamp c)%Z) ->
  getUserStakedAmount K newPublicKey connection walletAddress now w
  = fetchOrFallback K newPublicKey connection walletAddress now
      (mkWorld (purge K now (stakedAmountCache w)) (rpcLog w)).
Proof.
  intros Hstale. rewrite getUserStakedAmount_unfold. simpl.
  destruct (purge K now (stakedAmountCache w) !! walletAddress) as [c|] eqn:Hc;
    [|done].
  specialize (Hstale c eq_refl). rewrite bool_decide_eq_false_2; [done|lia].
Qed.

Lemma purge_lookup_Some now (cache : gmap string CacheEntry) key c :
  purge K now cache !! key = Some c
  <-> cache !! key = Some c /\ (now - timestamp c <= CACHE_DURATION K)%Z.
Proof.
  unfold purge. rewrite map_lookup_filter_Some. simpl.
  split; intros [? ?]; split; [done|lia|done|lia].
Qed.

Lemma purge_lookup_expired now (cache : gmap string CacheEntry) key c :
  cache !! key = Some c ->
  (CACHE_DURATION K < now - timestamp c)%Z ->
  purge K now cache !! key = None.
Proof.
  intros Hc Hold. destruct (purge K now cache !! key) as [c'|] eqn:Hc'; [|done].
  apply purge_lookup_Some in Hc' as [Hc' ?]. rewrite Hc in Hc'.
  injection Hc' as ->. lia.
Qed.

Lemma purge_lookup_None now (cache : gmap string CacheEntry) key :
  cache !! key = None -> purge K now cache !! key = None.
Proof. intros Hc. unfold purge. apply map_lookup_filter_None_2. by left. Qed.

(** C4. When the cache holds an entry for the wallet with
    [now - timestamp < CACHE_DURATION], the call returns the amount of that
    entry and the request log is unchanged: no request is issued. *)
Theorem fresh_entry_served_without_fetch connection walletAddress now w c :
  stakedAmountCache w !! walletAddress = Some c ->
  (now - timestamp c < CACHE_DURATION K)%Z ->
  getUserStakedAmount K newPublicKey connection walletAddress now w
  = (Return (amount c),
     mkWorld (purge K now (stakedAmountCache w)) (rpcLog w)).
Proof.
  intros Hc Hfresh. rewrite getUserStakedAmount_unfold. simpl.
  assert (purge K now (stakedAmountCache w) !! walletAddress = Some c) as ->.
  { apply purge_lookup_Some. split; [done|lia]. }
  by rewrite bool_decide_eq_true_2.
Qed.

(** C1, as the code has it.  An entry older than [CACHE_DURATION] is
    deleted by the sweep of lines 16-20 before the [try] block runs, so
    when the pipeline then fails the handler finds no entry and the call
    throws: the amount of the expired entry is not returned. *)
Theorem expired_entry_lost_before_fallback connection walletAddress now w c e :
  stakedAmountCache w !! walletAddress = Some c ->
  (CACHE_DURATION K < now - timestamp c)%Z ->
  pipelineOutcome' connection walletAddress = Throw e ->
  (getUserStakedAmount K newPublicKey connection walletAddress now w).1 = Throw e.
Proof.
  intros Hc Hold Hfail.
  pose proof (purge_lookup_expired now _ _ _ Hc Hold) as Hgone.
  rewrite getUserStakedAmount_miss by (intros c'; by rewrite Hgone).
  destruct (fetchOrFallback_run connection walletAddress now
              (mkWorld (purge K now (stakedAmountCache w)) (rpcLog w)))
    as (calls & _ & ->).
  rewrite Hfail. simpl. by rewrite Hgone.
Qed.

(** C5. When the pipeline fails and the cache holds no entry for the
    wallet, the call fails: the error of the pipeline is rethrown to the
    caller. *)
Theorem failure_without_entry_rethrown connection walletAddress now w e :
  stakedAmountCache w !! walletAddress = None ->
  pipelineOutcome' connection walletAddress = Throw e ->
  (getUserStakedAmount K newPublicKey connection walletAddress now w).1 = Throw e.
Proof.
  intros Hnone Hfail.
  pose proof (purge_lookup_None now _ _ Hnone) as Hgone.
  rewrite getUserStakedAmount_miss by (intros c'; by rewrite Hgone).
  destruct (fetchOrFallback_run connection walletAddress now
              (mkWorld (purge K now (stakedAmountCache w)) (rpcLog w)))
    as (calls & _ & ->).
  rewrite Hfail. simpl. by rewrite Hgone.
Qed.

(** The cache after a call: the swept cache, with the wallet's entry
    written exactly when the [try] block was entered and succeeded. *)
Lemma getUserStakedAmount_cache connection walletAddress now w :
  let cache1 := purge K now (stakedAmountCache w) in
  stakedAmountCache
    (getUserStakedAmount K newPublicKey connection walletAddress now w).2
  = cache1
  \/ exists total,
       pipelineOutcome' connection walletAddress = Return total
       /\ stakedAmountCache
            (getUserStakedAmount K newPublicKey connection walletAddress now w).2
          = <[walletAddress := {| amount := total; timestamp := now |}]> cache1.
Proof.
  intros cache1. rewrite getUserStakedAmount_unfold. simpl. fold cache1.
  destruct (fetchOrFallback_run connection walletAddress now
              (mkWorld cache1 (rpcLog w))) as (calls & _ & Hrun).
  assert (stakedAmountCache
            (fetchOrFallback K newPublicKey connection walletAddress now
               (mkWorld cache1 (rpcLog w))).2 = cache1
          \/ exists total,
               pipelineOutcome' connection walletAddress = Return total
               /\ stakedAmountCache
                    (fetchOrFallback K newPublicKey connection walletAddress now
                       (mkWorld cache1 (rpcLog w))).2
                  = <[walletAddress := {| amount := total; timestamp := now |}]> cache1)
    as Hfetch.
  { rewrite Hrun.
    destruct (pipelineOutcome' connection walletAddress) as [total|e]; simpl;
      [right; by exists total | by left]. }
  destruct (cache1 !! walletAddress) as [c|]; [|done].
  case_bool_decide; [by left | done].
Qed.

(** Where an entry found after a call comes from. *)
Lemma getUserStakedAmount_entry connection walletAddress now w key entry :
  stakedAmountCache
    (getUserStakedAmount K newPublicKey connection walletAddress now w).2
    !! key = Some entry ->
  stakedAmountCache w !! key = Some entry
  \/ (key = walletAddress
      /\ exists total,
           pipelineOutcome' connection walletAddress = Return total
           /\ entry = {| amount := total; timestamp := now |}).
Proof.
  destruct (getUserStakedAmount_cache connection walletAddress now w)
    as [-> | (total & Hok & ->)].
  - intros [? _]%purge_lookup_Some. by left.
  - destruct (decide (key = walletAddress)) as [->|Hne].
    + rewrite lookup_insert_eq. intros [= <-]. right. eauto.
    + rewrite lookup_insert_ne by done. intros [? _]%purge_lookup_Some. by left.
Qed.

Lemma notFresh_miss now w walletAddress :
  notFresh K now (stakedAmountCache w) walletAddress ->
  forall c, purge K now (stakedAmountCache w) !! walletAddress = Some c ->
            (CACHE_DURATION K <= now - timestamp c)%Z.
Proof.
  unfold notFresh. intros Hstale c [Hc _]%purge_lookup_Some.
  by rewrite Hc in Hstale.
Qed.

(** A call that misses the cache and whose pipeline succeeds. *)
Lemma getUserStakedAmount_recomputed connection walletAddress now w total :
  notFresh K now (stakedAmountCache w) walletAddress ->
  pipelineOutcome' connection walletAddress = Return total ->
  exists calls,
    getUserStakedAmount K newPublicKey connection walletAddress now w
    = (Return total,
       mkWorld (<[walletAddress := {| amount := total; timestamp := now |}]>
                  (purge K now (stakedAmountCache w)))
               (rpcLog w ++ calls)).
Proof.
  intros Hstale Hok.
  rewrite getUserStakedAmount_miss by by apply notFresh_miss.
  destruct (fetchOrFallback_run connection walletAddress now
              (mkWorld (purge K now (stakedAmountCache w)) (rpcLog w)))
    as (calls & _ & ->).
  rewrite Hok. by exists calls.
Qed.

(** The three ways a call can go, and what each does to the cache. *)
Lemma getUserStakedAmount_cases connection walletAddress now w :
  let cache' :=
    stakedAmountCache
      (getUserStakedAmount K newPublicKey connection walletAddress now w).2 in
  let swept := purge K now (stakedAmountCache w) in
  (exists c, stakedAmountCache w !! walletAddress = Some c
             /\ (now - timestamp c < CACHE_DURATION K)%Z
             /\ cache' = swept)
  \/ (exists e, pipelineOutcome' connection walletAddress = Throw e
                /\ cache' = swept)
  \/ (exists total,
         pipelineOutcome' connection walletAddress = Return total
         /\ cache'
            = <[walletAddress := {| amount := total; timestamp := now |}]> swept).
Proof.
  intros cache' swept. subst cache' swept.
  rewrite getUserStakedAmount_unfold. simpl.
  destruct (fetchOrFallback_run connection walletAddress now
              (mkWorld (purge K now (stakedAmountCache w)) (rpcLog w)))
    as (calls & _ & Hrun).
  assert (forall r, r = fetchOrFallback K newPublicKey connection walletAddress
                          now (mkWorld (purge K now (stakedAmountCache w))
                                 (rpcLog w)) ->
            (exists e, pipelineOutcome' connection walletAddress = Throw e
                       /\ stakedAmountCache r.2
                          = purge K now (stakedAmountCache w))
            \/ (exists total,
                  pipelineOutcome' connection walletAddress = Return total
                  /\ stakedAmountCache r.2
                     = <[walletAddress := {| amount := total; timestamp := now |}]>
                         (purge K now (stakedAmountCache w)))) as Hfetch.
  { intros r ->. rewrite Hrun.
    destruct (pipelineOutcome' connection walletAddress) as [total|e]; simpl;
      [right | left]; eauto. }
  destruct (purge K now (stakedAmountCache w) !! walletAddress) as [c|] eqn:Hc.
  - case_bool_decide as Hfresh.
    + left. exists c. apply purge_lookup_Some in Hc as [Hc _]. done.
    + right. by apply Hfetch.
  - right. by apply Hfetch.
Qed.

(** C3. The cache is written by a fully successful run and by nothing
    else.  When the pipeline fails, and when the call is served from a
    fresh entry, the cache after the call is the swept cache: nothing is
    created or overwritten.  When the call finds no fresh entry and the
    pipeline succeeds, the call returns the total that the pipeline
    completed with, aggregated over all fetched transactions, and the
    wallet's entry is created or overwritten with that total and the time
    of the call.  So an entry found after the call is either an entry that
    was there before, unchanged, or the wallet's entry holding the total
    just computed. *)
Theorem cache_written_only_after_success connection walletAddress now w :
  let r := getUserStakedAmount K newPublicKey connection walletAddress now w in
  let swept := purge K now (stakedAmountCache w) in
  (forall e,
      pipelineOutcome' connection walletAddress = Throw e ->
      stakedAmountCache r.2 = swept)
  /\ (forall c,
      stakedAmountCache w !! walletAddress = Some c ->
      (now - timestamp c < CACHE_DURATION K)%Z ->
      stakedAmountCache r.2 = swept)
  /\ (forall total,
      notFresh K now (stakedAmountCache w) walletAddress ->
      pipelineOutcome' connection walletAddress = Return total ->
      r.1 = Return total
      /\ stakedAmountCache r.2
         = <[walletAddress := {| amount := total; timestamp := now |}]> swept)
  /\ (forall key entry,
      stakedAmountCache r.2 !! key = Some entry ->
      stakedAmountCache w !! key = Some entry
      \/ (key = walletAddress
          /\ exists total,
               pipelineOutcome' connection walletAddress = Return total
               /\ entry = {| amount := total; timestamp := now |})).
Proof.
  intros r swept. subst r swept. split; [|split; [|split]].
  - intros e He.
    destruct (getUserStakedAmount_cache connection walletAddress now w)
      as [Hsame | (total & Hok & _)]; [done | congruence].
  - intros c Hc Hfresh. rewrite getUserStakedAmount_unfold. simpl.
    assert (purge K now (stakedAmountCache w) !! walletAddress = Some c) as ->.
    { apply purge_lookup_Some. split; [done|lia]. }
    by rewrite bool_decide_eq_true_2.
  - intros total Hstale Hok.
    by destruct (getUserStakedAmount_recomputed connection walletAddress now w
                   total Hstale Hok) as [calls ->].
  - apply getUserStakedAmount_entry.
Qed.

(** C10. On the fallback path (the pipeline fails, an entry that is not
    fresh survived the sweep) the call returns the amount of the entry and
    leaves the cache as the sweep left it, the wallet's entry included:
    neither amount nor timestamp changes.  A later call at a time when the
    entry is beyond [CACHE_DURATION] therefore runs the pipeline again: it
    issues the listing request. *)
Theorem fallback_leaves_entry_untouched connection walletAddress now w c e :
  pipelineOutcome' connection walletAddress = Throw e ->
  purge K now (stakedAmountCache w) !! walletAddress = Some c ->
  (CACHE_DURATION K <= now - timestamp c)%Z ->
  newPublicKey walletAddress = Return tt ->
  let r := getUserStakedAmount K newPublicKey connection walletAddress now w in
  r.1 = Return (amount c)
  /\ stakedAmountCache r.2 = purge K now (stakedAmountCache w)
  /\ stakedAmountCache r.2 !! walletAddress = Some c
  /\ forall connection' now',
       (CACHE_DURATION K <= now' - timestamp c)%Z ->
       exists rest,
         rpcLog (getUserStakedAmount K newPublicKey connection' walletAddress
                   now' r.2).2
         = rpcLog r.2
           ++ CallGetSignaturesForAddress (INCUBATOR_WALLET K) 1000 :: rest.
Proof.
  intros Hfail Hc Hstale Hkey r.
  assert (r.1 = Return (amount c)
          /\ stakedAmountCache r.2 = purge K now (stakedAmountCache w)) as [Hr1 Hr2].
  { subst r. rewrite getUserStakedAmount_miss.
    - destruct (fetchOrFallback_run connection walletAddress now
                  (mkWorld (purge K now (stakedAmountCache w)) (rpcLog w)))
        as (calls & _ & ->).
      rewrite Hfail. simpl. by rewrite Hc.
    - intros c'. rewrite Hc. by intros [= <-]. }
  split; [done|]. split; [done|]. split; [by rewrite Hr2|].
  intros connection' now' Hstale'.
  rewrite getUserStakedAmount_miss.
  - destruct (fetchOrFallback_run connection' walletAddress now'
                (mkWorld (purge K now' (stakedAmountCache r.2)) (rpcLog r.2)))
      as (calls & Hcalls & ->).
    unfold pipelineCalls in Hcalls. rewrite Hkey in Hcalls.
    destruct Hcalls as [rest ->]. exists rest.
    by destruct (pipelineOutcome' connection' walletAddress).
  - intros c'. intros [Hc' _]%purge_lookup_Some.
    rewrite Hr2, Hc in Hc'. by injection Hc' as <-.
Qed.

(** Entries are only ever stored under keys the constructor accepts. *)
Lemma getUserStakedAmount_keysWellFormed connection walletAddress now w :
  keysWellFormed newPublicKey (stakedAmountCache w) ->
  keysWellFormed newPublicKey
    (stakedAmountCache
       (getUserStakedAmount K newPublicKey connection walletAddress now w).2).
Proof.
  intros Hwf key entry Hentry.
  destruct (getUserStakedAmount_entry _ _ _ _ _ _ Hentry)
    as [Hold | (-> & total & Hok & _)].
  - by eapply Hwf.
  - by eapply pipelineOutcome_key_accepted.
Qed.

Lemma reachable_keysWellFormed w :
  reachable K newPublicKey w -> keysWellFormed newPublicKey (stakedAmountCache w).
Proof.
  induction 1 as [|w connection walletAddress now _ IH].
  - intros key entry Hentry. simpl in Hentry. by rewrite lookup_empty in Hentry.
  - by apply getUserStakedAmount_keysWellFormed.
Qed.

(** C2. In every world the module can reach, a call with an identifier
    that the [PublicKey] constructor rejects throws the constructor's
    error to the caller and issues no request.  The handler's fallback
    cannot absorb it: no entry is ever stored under such an identifier. *)
Theorem invalid_key_error_reaches_caller connection walletAddress now w e :
  reachable K newPublicKey w ->
  newPublicKey walletAddress = Throw e ->
  getUserStakedAmount K newPublicKey connection walletAddress now w
  = (Throw e, mkWorld (purge K now (stakedAmountCache w)) (rpcLog w)).
Proof.
  intros Hreach Hbad.
  assert (stakedAmountCache w !! walletAddress = None) as Hnone.
  { destruct (stakedAmountCache w !! walletAddress) as [c|] eqn:Hc; [|done].
    apply reachable_keysWellFormed in Hreach. apply Hreach in Hc. congruence. }
  pose proof (purge_lookup_None now _ _ Hnone) as Hgone.
  rewrite getUserStakedAmount_miss by (intros c'; by rewrite Hgone).
  destruct (fetchOrFallback_run connection walletAddress now
              (mkWorld (purge K now (stakedAmountCache w)) (rpcLog w)))
    as (calls & Hcalls & ->).
  unfold pipelineCalls in Hcalls. rewrite Hbad in Hcalls. subst calls.
  rewrite (pipelineOutcome_key_rejected _ _ _ Hbad). simpl. rewrite Hgone.
  by rewrite app_nil_r.
Qed.

End OrchestratorFacts.

(** * The properties on the sample data *)

Module SampleRuns.

Import Sample.

(** Alice's first query: all five listed signatures are requested, and
    only the first record is counted, her deposit of 50; her deposit of 70
    in [tx2] is skipped like every other later record. *)
Example alice_first_query :
  getUserStakedAmount constants publicKey online "Alice" 1000 emptyWorld
  = (Return 50%float,
     mkWorld {[ "Alice" := {| amount := 50%float; timestamp := 1000 |} ]}
       (CallGetSignaturesForAddress "Incubator" 1000
        :: map CallGetParsedTransaction ["sig1"; "sig2"; "sig1"; "sig3"; "sig4"])).
Proof. vm_compute. reflexivity. Qed.

(** Twelve signatures are fetched in a batch of ten and a batch of two. *)
Example twelve_signatures_two_batches :
  let listing := map Build_ConfirmedSignatureInfo (replicate 12 "sig2") in
  let connection :=
    {| getSignaturesForAddress := fun _ _ => Return listing;
       getParsedTransaction := ledger;
       settlesFirst := fun _ => 0 |} in
  (getUserStakedAmount constants publicKey connection "Alice" 0 emptyWorld).1
  = Return 70%float
  /\ length (rpcLog (getUserStakedAmount constants publicKey connection "Alice" 0
                       emptyWorld).2) = 13.
Proof. vm_compute. split; reflexivity. Qed.

Example repeated_record_example :
  processTransactions constants "Alice" [Some tx1; Some tx2; Some tx1] (zero, ∅)
  = processTransactions constants "Alice" [Some tx1; Some tx2] (zero, ∅).
Proof. vm_compute. reflexivity. Qed.

Lemma records_after_first_never_counted_witness :
  is_Some (meta tx1)
  /\ signature tx1 = None
  /\ Forall noSignature [Some tx2; Some tx2]
  /\ (processTransactions constants "Alice" [Some tx1; Some tx2; Some tx2]
        (zero, ∅)).1 = 50%float.
Proof.
  assert (is_Some (meta tx1)) as Hmeta by (by eexists).
  assert (signature tx1 = None) as Hsig by reflexivity.
  assert (Forall noSignature [Some tx2; Some tx2]) as Hl
    by (repeat constructor).
  split; [exact Hmeta|]. split; [exact Hsig|]. split; [exact Hl|].
  rewrite (records_after_first_never_counted constants "Alice" tx1
             [Some tx2; Some tx2] (zero, ∅) Hmeta Hsig Hl).
  vm_compute. reflexivity.
Defined.

Lemma non_participant_contributes_nothing_witness :
  isFromUser "Alice" tx4 = false
  /\ (processTransaction constants "Alice" (70%float, ∅) (Some tx4)).1 = 70%float.
Proof.
  split; [reflexivity|].
  apply (non_participant_contributes_nothing constants "Alice" (70%float, ∅) tx4).
  reflexivity.
Defined.

Lemma only_positive_delta_contributes_witness :
  creditsIncubator constants (balance 1 "Incubator" "USDT" (Some 90%float)) = true
  /\ processBalance constants [balance 1 "Incubator" "USDT" (Some 120%float)]
       70%float (balance 1 "Incubator" "USDT" (Some 90%float)) = 70%float.
Proof.
  split; [reflexivity|].
  apply (only_positive_delta_contributes constants
           [balance 1 "Incubator" "USDT" (Some 120%float)] 70%float
           (balance 1 "Incubator" "USDT" (Some 90%float)) eq_refl).
  reflexivity.
Defined.

Lemma pre_balance_paired_by_accountIndex_witness :
  creditsIncubator constants (balance 1 "Incubator" "USDT" (Some 50%float)) = true
  /\ processBalance constants
       [balance 2 "Alice" "USDT" (Some 80%float); balance 1 "Incubator" "USDT" None]
       zero (balance 1 "Incubator" "USDT" (Some 50%float))
     = 50%float.
Proof.
  split; [reflexivity|].
  destruct (pre_balance_paired_by_accountIndex constants zero
              (balance 1 "Incubator" "USDT" (Some 50%float)) eq_refl)
    as [Hfirst _].
  eapply eq_trans.
  - apply (Hfirst [balance 2 "Alice" "USDT" (Some 80%float)]
                  (balance 1 "Incubator" "USDT" None) [] eq_refl).
    repeat constructor. discriminate.
  - reflexivity.
Defined.

Lemma fresh_entry_served_without_fetch_witness :
  stakedAmountCache afterAlice !! "Alice"
  = Some {| amount := 50%float; timestamp := 1000 |}
  /\ (2000 - 1000 < CACHE_DURATION constants)%Z
  /\ getUserStakedAmount constants publicKey offline "Alice" 2000 afterAlice
     = (Return 50%float,
        mkWorld (purge constants 2000 (stakedAmountCache afterAlice))
          (rpcLog afterAlice)).
Proof.
  split; [vm_compute; reflexivity|]. split; [vm_compute; reflexivity|].
  apply (fresh_entry_served_without_fetch constants publicKey offline "Alice" 2000
           afterAlice {| amount := 50%float; timestamp := 1000 |});
    vm_compute; reflexivity.
Defined.

Lemma expired_entry_lost_before_fallback_witness :
  stakedAmountCache cached70 !! "Alice"
  = Some {| amount := 70%float; timestamp := 0 |}
  /\ (CACHE_DURATION constants < 300001 - 0)%Z
  /\ pipelineOutcome constants publicKey offline "Alice"
     = Throw "429 Too Many Requests"
  /\ (getUserStakedAmount constants publicKey offline "Alice" 300001 cached70).1
     = Throw "429 Too Many Requests".
Proof.
  split; [vm_compute; reflexivity|]. split; [vm_compute; reflexivity|]. split; [vm_compute; reflexivity|].
  apply (expired_entry_lost_before_fallback constants publicKey offline "Alice"
           300001 cached70 {| amount := 70%float; timestamp := 0 |});
    vm_compute; reflexivity.
Defined.

Lemma failure_without_entry_rethrown_witness :
  stakedAmountCache emptyWorld !! "Alice" = None
  /\ pipelineOutcome constants publicKey offline "Alice"
     = Throw "429 Too Many Requests"
  /\ (getUserStakedAmount constants publicKey offline "Alice" 1000 emptyWorld).1
     = Throw "429 Too Many Requests".
Proof.
  split; [vm_compute; reflexivity|]. split; [vm_compute; reflexivity|].
  apply (failure_without_entry_rethrown constants publicKey offline "Alice" 1000
           emptyWorld); vm_compute; reflexivity.
Defined.

Lemma cache_written_only_after_success_witness :
  notFresh constants 300000 (stakedAmountCache cached70) "Alice"
  /\ pipelineOutcome constants publicKey online "Alice" = Return 50%float
  /\ (getUserStakedAmount constants publicKey online "Alice" 300000 cached70).1
     = Return 50%float
  /\ stakedAmountCache
       (getUserStakedAmount constants publicKey online "Alice" 300000 cached70).2
       !! "Alice"
     = Some {| amount := 50%float; timestamp := 300000 |}.
Proof.
  assert (notFresh constants 300000 (stakedAmountCache cached70) "Alice")
    as Hstale by (vm_compute; discriminate).
  assert (pipelineOutcome constants publicKey online "Alice" = Return 50%float)
    as Hok by (vm_compute; reflexivity).
  split; [exact Hstale|]. split; [exact Hok|].
  destruct (cache_written_only_after_success constants publicKey online "Alice"
              300000 cached70) as (_ & _ & Hwrite & _).
  destruct (Hwrite 50%float Hstale Hok) as [Hr Hcache].
  split; [exact Hr|]. rewrite Hcache. apply lookup_insert_eq.
Defined.

Lemma fallback_leaves_entry_untouched_witness :
  pipelineOutcome constants publicKey offline "Alice"
  = Throw "429 Too Many Requests"
  /\ purge constants 300000 (stakedAmountCache cached70) !! "Alice"
     = Some {| amount := 70%float; timestamp := 0 |}
  /\ (CACHE_DURATION constants <= 300000 - 0)%Z
  /\ publicKey "Alice" = Return tt
  /\ (getUserStakedAmount constants publicKey offline "Alice" 300000 cached70).1
     = Return 70%float
  /\ stakedAmountCache
       (getUserStakedAmount constants publicKey offline "Alice" 300000 cached70).2
       !! "Alice"
     = Some {| amount := 70%float; timestamp := 0 |}.
Proof.
  split; [vm_compute; reflexivity|]. split; [vm_compute; reflexivity|]. split; [vm_compute; discriminate|].
  split; [vm_compute; reflexivity|].
  destruct (fallback_leaves_entry_untouched constants publicKey offline "Alice"
              300000 cached70 {| amount := 70%float; timestamp := 0 |}
              "429 Too Many Requests")
    as (Hr & _ & Hentry & _); try (vm_compute; reflexivity).
  - vm_compute; discriminate.
  - split; [exact Hr | exact Hentry].
Defined.

Lemma invalid_key_error_reaches_caller_witness :
  reachable constants publicKey afterAlice
  /\ publicKey "" = Throw "Invalid public key input"
  /\ getUserStakedAmount constants publicKey online "" 2000 afterAlice
     = (Throw "Invalid public key input",
        mkWorld (purge constants 2000 (stakedAmountCache afterAlice))
          (rpcLog afterAlice)).
Proof.
  assert (reachable constants publicKey afterAlice) as Hreach
    by apply reachable_call, reachable_start.
  split; [exact Hreach|]. split; [vm_compute; reflexivity|].
  apply (invalid_key_error_reaches_caller constants publicKey online "" 2000
           afterAlice "Invalid public key input" Hreach).
  vm_compute; reflexivity.
Defined.

End SampleRuns.

(** * Further properties of the aggregation *)

Section AggregationMore.

Variable SOLANA_CONSTANTS : SolanaConstants.

Abbreviation K := SOLANA_CONSTANTS.

Implicit Types (st : float * gset (option string)) (tx : option ParsedTransactionWithMeta).
Implicit Types (t : ParsedTransactionWithMeta) (walletAddress : string).

(** X1. Records that the RPC resolves to [null], or that carry no
    metadata, are skipped without a trace: they add nothing to the total
    and their signatures are not marked as processed, so the aggregation
    is the aggregation of the remaining records. *)
Theorem records_without_meta_skipped walletAddress l st :
  processTransactions K walletAddress l st
  = processTransactions K walletAddress (List.filter hasMeta l) st.
Proof.
  revert st. induction l as [|tx l IH]; intros st; [done|].
  cbn [List.filter]. destruct (hasMeta tx) eqn:Hmeta.
  - rewrite !processTransactions_cons. apply IH.
  - rewrite processTransactions_cons, <- IH. f_equal.
    destruct tx as [t|]; [|done]. unfold hasMeta in Hmeta.
    unfold processTransaction. by destruct (meta t).
Qed.

(** X2. Deduplication looks at the signature alone: once a record with
    metadata has been visited, any later record under the same signature
    is skipped, whatever it contains. *)
Theorem later_record_with_seen_signature_skipped walletAddress t t' l1 l2 l3 st :
  is_Some (meta t) ->
  signature t' = signature t ->
  processTransactions K walletAddress (l1 ++ Some t :: l2 ++ Some t' :: l3) st
  = processTransactions K walletAddress (l1 ++ Some t :: l2 ++ l3) st.
Proof.
  intros Hmeta Hsig.
  rewrite !processTransactions_app, !processTransactions_cons.
  rewrite !processTransactions_app, processTransactions_cons.
  f_equal. apply processTransaction_seen. rewrite Hsig.
  by eapply processTransactions_mono, processTransaction_records.
Qed.

(** X3. Post-balance entries of other owners or of other mints play no
    part: the total over the post-balances of a transaction is the total
    over those that credit the incubator in USDT. *)
Theorem other_balances_ignored preBalances postBalances total :
  fold_left (processBalance K preBalances) postBalances total
  = fold_left (processBalance K preBalances)
      (List.filter (creditsIncubator K) postBalances) total.
Proof.
  revert total. induction postBalances as [|post l IH]; intros total; [done|].
  simpl. destruct (creditsIncubator K post) eqn:Hq; simpl.
  - apply IH.
  - rewrite IH. unfold processBalance at 2. by rewrite Hq.
Qed.

Lemma fold_processBalance_no_credit preBalances postBalances total :
  Forall (fun post => creditsIncubator K post = false) postBalances ->
  fold_left (processBalance K preBalances) postBalances total = total.
Proof.
  induction 1 as [|post l Hpost _ IH]; simpl; [done|].
  unfold processBalance at 2. by rewrite Hpost.
Qed.

(** X4. A transaction none of whose post-balance entries credits the
    incubator in USDT, a missing [postTokenBalances] included, leaves the
    total as it was even when the wallet takes part in it. *)
Theorem transaction_without_incubator_credit walletAddress st t :
  Forall (fun post => creditsIncubator K post = false)
         (or_empty (meta t ≫= postTokenBalances)) ->
  (processTransaction K walletAddress st (Some t)).1 = st.1.
Proof.
  intros Hno. unfold processTransaction.
  destruct (meta t) as [m|]; [|done]. case_bool_decide; [done|].
  destruct (isFromUser walletAddress t); [|done]. simpl.
  by apply fold_processBalance_no_credit.
Qed.

Lemma processTransactions_neverFromUser walletAddress l st :
  neverFromUser walletAddress l ->
  (processTransactions K walletAddress l st).1 = st.1.
Proof.
  intros Hl. revert st.
  induction Hl as [|tx l Htx _ IH]; intros st; [done|].
  rewrite processTransactions_cons, IH.
  destruct tx as [t|]; [|done]. unfold processTransaction.
  destruct (meta t); [|done]. case_bool_decide; [done|]. by rewrite Htx.
Qed.

End AggregationMore.

(** * Further properties of the orchestrator *)

Section OrchestratorMore.

Variable SOLANA_CONSTANTS : SolanaConstants.
Variable newPublicKey : string -> Completion unit.

Abbreviation K := SOLANA_CONSTANTS.
Abbreviation pipelineOutcome' := (pipelineOutcome SOLANA_CONSTANTS newPublicKey).
Abbreviation listingCall :=
  (CallGetSignaturesForAddress (INCUBATOR_WALLET SOLANA_CONSTANTS) 1000).

Implicit Types (w : World) (connection : Connection) (walletAddress : string).
Implicit Types (now : Z) (st : float * gset (option string)) (c : CacheEntry).

(** X5. A run in which the key is accepted and every request resolves
    issues the listing request followed by one detail request per listed
    signature, in listing order, and completes with the aggregate of all
    the fetched records. *)
Theorem successful_run_requests connection walletAddress w signatures txs :
  newPublicKey walletAddress = Return tt ->
  getSignaturesForAddress connection (INCUBATOR_WALLET K) 1000 = Return signatures ->
  fetchedTransactions connection signatures = Return txs ->
  fetchStakedTotal K newPublicKey connection walletAddress w
  = (Return (processTransactions K walletAddress txs (zero, ∅)).1,
     mkWorld (stakedAmountCache w)
       (rpcLog w ++ listingCall :: detailCalls signatures)).
Proof.
  intros Hkey Hlist Hall.
  unfold fetchStakedTotal, rpc_getSignaturesForAddress. run.
  rewrite Hkey, Hlist.
  rewrite (batchLoop_ok K _ _ _ _ _ _ _ txs) by (done || lia). simpl.
  by rewrite <- app_assoc.
Qed.

(** X6. A rejected detail request fails the run after its own batch: when
    the first [j] batches resolve and the next batch has a rejected
    request, the run throws what [Promise.all] of that batch rejects with,
    which is the reason of one of the rejected requests of that batch, the
    one that settles first.  The requests issued are the listing and the
    details of the first [j + 1] batches, all requests of the failing batch
    included, and no later batch is started. *)
Theorem rejection_stops_later_batches connection walletAddress w signatures
    j txs e :
  newPublicKey walletAddress = Return tt ->
  getSignaturesForAddress connection (INCUBATOR_WALLET K) 1000 = Return signatures ->
  fetchedTransactions connection (take (j * batchSize) signatures) = Return txs ->
  fetchedTransactions connection
    (take batchSize (drop (j * batchSize) signatures)) = Throw e ->
  fetchStakedTotal K newPublicKey connection walletAddress w
  = (Throw e,
     mkWorld (stakedAmountCache w)
       (rpcLog w
        ++ listingCall :: detailCalls (take (S j * batchSize) signatures)))
  /\ exists s,
       s ∈ take batchSize (drop (j * batchSize) signatures)
       /\ getParsedTransaction connection (info_signature s) = Throw e.
Proof.
  intros Hkey Hlist Hbefore Hrej. split.
  - unfold fetchStakedTotal, rpc_getSignaturesForAddress. run.
    rewrite Hkey, Hlist.
    rewrite (batchLoop_rejected K _ _ _ j _ _ _ _ txs e) by (done || lia). simpl.
    by rewrite <- app_assoc.
  - apply settle_Throw, list_elem_of_fmap in Hrej as (s & Hs & Hin). eauto.
Qed.

(** X7. Write, then read.  A call that misses the cache and whose
    pipeline succeeds returns the computed total and stores it with the
    time of the call; any call for the same wallet less than
    [CACHE_DURATION] later returns that total without a request, whatever
    the ledger would answer by then. *)
Theorem recomputed_total_served_within_duration connection walletAddress
    now now' w total :
  notFresh K now (stakedAmountCache w) walletAddress ->
  pipelineOutcome' connection walletAddress = Return total ->
  (now' - now < CACHE_DURATION K)%Z ->
  let r := getUserStakedAmount K newPublicKey connection walletAddress now w in
  r.1 = Return total
  /\ stakedAmountCache r.2 !! walletAddress
     = Some {| amount := total; timestamp := now |}
  /\ forall connection',
       getUserStakedAmount K newPublicKey connection' walletAddress now' r.2
       = (Return total,
          mkWorld (purge K now' (stakedAmountCache r.2)) (rpcLog r.2)).
Proof.
  intros Hstale Hok Hsoon r.
  destruct (getUserStakedAmount_recomputed K newPublicKey connection
              walletAddress now w total Hstale Hok) as [calls Hrun].
  subst r. rewrite Hrun. simpl.
  assert ((<[walletAddress := {| amount := total; timestamp := now |}]>
             (purge K now (stakedAmountCache w)) : gmap string CacheEntry)
          !! walletAddress = Some {| amount := total; timestamp := now |})
    as Hentry by apply lookup_insert_eq.
  split; [done|]. split; [done|]. intros connection'.
  rewrite getUserStakedAmount_unfold. simpl.
  assert (purge K now'
            (<[walletAddress := {| amount := total; timestamp := now |}]>
               (purge K now (stakedAmountCache w)))
          !! walletAddress = Some {| amount := total; timestamp := now |}) as ->.
  { apply purge_lookup_Some. split; [done|]. simpl. lia. }
  simpl. by rewrite bool_decide_eq_true_2.
Qed.

(** X8. A call for one wallet changes the entries of the other wallets
    only by the sweep: another wallet has an entry afterwards exactly when
    it had that entry before and the entry is not older than
    [CACHE_DURATION] at the time of the call. *)
Theorem other_wallets_entries_only_swept connection walletAddress now w key c :
  key <> walletAddress ->
  stakedAmountCache
    (getUserStakedAmount K newPublicKey connection walletAddress now w).2
    !! key = Some c
  <-> stakedAmountCache w !! key = Some c
      /\ (now - timestamp c <= CACHE_DURATION K)%Z.
Proof.
  intros Hne. rewrite <- purge_lookup_Some.
  destruct (getUserStakedAmount_cache K newPublicKey connection walletAddress
              now w) as [-> | (total & _ & ->)]; [done|].
  by rewrite lookup_insert_ne.
Qed.

(** X10. In every world the module can reach, each key of the cache is an
    identifier that the [PublicKey] constructor accepts. *)
Theorem cached_keys_accepted_by_constructor w key c :
  reachable K newPublicKey w ->
  stakedAmountCache w !! key = Some c ->
  newPublicKey key = Return tt.
Proof.
  intros Hreach. revert key c.
  induction Hreach as [|w connection walletAddress now _ IH]; intros key c Hc.
  - simpl in Hc. by rewrite lookup_empty in Hc.
  - destruct (getUserStakedAmount_entry K newPublicKey _ _ _ _ _ _ Hc)
      as [Hold | (-> & total & Hok & _)]; [by eapply IH|].
    by eapply pipelineOutcome_key_accepted.
Qed.

(** X11. After calls made one after another from the empty cache, the
    amount of each entry is the total that the pipeline completed with in
    one of those calls, made for that wallet with that connection at the
    time the entry records; and every later call for the wallet either
    came while the entry was fresh or had a failing pipeline.  So the
    entry holds the last successfully computed total of the wallet, never
    a partial sum or a value left by a failed run. *)
Theorem cached_amount_is_a_computed_total calls w key c :
  reachedBy K newPublicKey calls w ->
  stakedAmountCache w !! key = Some c ->
  exists later call earlier,
    calls = later ++ call :: earlier
    /\ call_wallet call = key
    /\ call_now call = timestamp c
    /\ pipelineOutcome' (call_connection call) key = Return (amount c)
    /\ Forall (fun call' =>
                 call_wallet call' = key ->
                 (call_now call' - timestamp c < CACHE_DURATION K)%Z
                 \/ exists e,
                      pipelineOutcome' (call_connection call') key = Throw e)
              later.
Proof.
  intros Hreach. revert key c.
  induction Hreach as [|calls w call _ IH]; intros key c Hc.
  - simpl in Hc. by rewrite lookup_empty in Hc.
  - destruct (getUserStakedAmount_cases K newPublicKey (call_connection call)
                (call_wallet call) (call_now call) w)
      as [(c0 & Hc0 & Hfresh & Hsame) | [(e & Hfail & Hsame)
                                        | (total & Hok & Hset)]].
    + rewrite Hsame in Hc. apply purge_lookup_Some in Hc as [Hc _].
      destruct (IH key c Hc) as (later & call0 & earlier & -> & Hrest).
      exists (call :: later), call0, earlier. split; [done|].
      destruct Hrest as (? & ? & ? & Hlater). repeat split; try done.
      constructor; [|done]. intros <-. left.
      rewrite Hc0 in Hc. by injection Hc as <-.
    + rewrite Hsame in Hc. apply purge_lookup_Some in Hc as [Hc _].
      destruct (IH key c Hc) as (later & call0 & earlier & -> & Hrest).
      exists (call :: later), call0, earlier. split; [done|].
      destruct Hrest as (? & ? & ? & Hlater). repeat split; try done.
      constructor; [|done]. intros <-. right. by exists e.
    + rewrite Hset in Hc.
      destruct (decide (key = call_wallet call)) as [->|Hne].
      * rewrite lookup_insert_eq in Hc. injection Hc as <-.
        exists [], call, calls. by repeat split.
      * rewrite lookup_insert_ne in Hc by done.
        apply purge_lookup_Some in Hc as [Hc _].
        destruct (IH key c Hc) as (later & call0 & earlier & -> & Hrest).
        exists (call :: later), call0, earlier. split; [done|].
        destruct Hrest as (? & ? & ? & Hlater). repeat split; try done.
        constructor; [|done]. by intros <-.
Qed.

(** X12. A wallet that appears among the account keys of none of the
    listed transactions gets the total 0, which is cached like any other
    total. *)
Theorem wallet_in_no_transaction_total_zero connection walletAddress now w
    signatures txs :
  notFresh K now (stakedAmountCache w) walletAddress ->
  newPublicKey walletAddress = Return tt ->
  getSignaturesForAddress connection (INCUBATOR_WALLET K) 1000 = Return signatures ->
  fetchedTransactions connection signatures = Return txs ->
  neverFromUser walletAddress txs ->
  let r := getUserStakedAmount K newPublicKey connection walletAddress now w in
  r.1 = Return zero
  /\ stakedAmountCache r.2 !! walletAddress
     = Some {| amount := zero; timestamp := now |}.
Proof.
  intros Hstale Hkey Hlist Hall Hnever r.
  assert (pipelineOutcome' connection walletAddress = Return zero) as Hok.
  { rewrite (pipelineOutcome_resolved K newPublicKey _ _ _ _ Hkey Hlist Hall).
    by rewrite (processTransactions_neverFromUser K). }
  destruct (getUserStakedAmount_recomputed K newPublicKey connection
              walletAddress now w zero Hstale Hok) as [calls Hrun].
  subst r. rewrite Hrun. simpl. split; [done|]. apply lookup_insert_eq.
Qed.

End OrchestratorMore.

(** * Properties of the deposit form *)

Section DepositForm.

Import Incubator.

Variables Wallet PublicKey Transaction : Type.
Variable parseFloat : string -> float.
Variable numberToString : float -> string.
Variable createUSDTTransferTransaction : Wallet -> float -> Completion Transaction.
Variable sendAndConfirmTransaction : Wallet -> Transaction -> Completion string.
Variable refetch : Completion unit.

Abbreviation handle :=
  (handleDeposit Wallet PublicKey Transaction parseFloat numberToString
     createUSDTTransferTransaction sendAndConfirmTransaction refetch).
Abbreviation attempt :=
  (depositAttempt Wallet Transaction numberToString
     createUSDTTransferTransaction sendAndConfirmTransaction refetch).

Implicit Types (s : State) (wallet : option Wallet) (publicKey : option PublicKey).

(** The [try] block starts by asking for the transfer of the amount it was
    given, and leaves [isDepositing] alone. *)
Lemma depositAttempt_shape wl x s :
  exists thrown s' rest,
    attempt wl x s = (thrown, s', CreateTransfer wl x :: rest)
    /\ isDepositing s' = isDepositing s.
Proof.
  unfold depositAttempt.
  destruct (createUSDTTransferTransaction wl x) as [transaction|err];
    [|by eauto 6].
  destruct (sendAndConfirmTransaction wl transaction) as [sig|err];
    by eauto 6.
Qed.

(** X13. The handler calls the services only with a connected wallet, a
    public key, and an amount that parses to a number above zero; what it
    then first asks for is the transfer of exactly the parsed amount. *)
Theorem deposit_calls_require_valid_input wallet publicKey s :
  (handle wallet publicKey s).2 <> [] ->
  let depositAmount := parseFloat (amount s) in
  is_Some publicKey
  /\ is_nan depositAmount = false
  /\ PrimFloat.leb depositAmount zero = false
  /\ exists wl rest,
       wallet = Some wl
       /\ (handle wallet publicKey s).2 = CreateTransfer wl depositAmount :: rest.
Proof.
  intros Hcalls depositAmount. unfold handleDeposit in *.
  destruct wallet as [wl|]; [|done]. destruct publicKey as [pk|]; [|done].
  fold depositAmount in Hcalls |- *.
  destruct (is_nan depositAmount) eqn:Hnan; [done|].
  destruct (PrimFloat.leb depositAmount zero) eqn:Hle; [done|]. simpl.
  split; [by eexists|]. split; [done|]. split; [done|].
  destruct (depositAttempt_shape wl depositAmount
              (setSuccess None (setError None (setIsDepositing true s))))
    as (thrown & s' & rest & -> & _).
  by exists wl, rest.
Qed.

(** X14. Whatever path the handler takes, and whichever service throws, a
    form that was not depositing at the click is not depositing when the
    handler is done. *)
Theorem deposit_never_leaves_isDepositing wallet publicKey s :
  isDepositing s = false ->
  isDepositing (handle wallet publicKey s).1 = false.
Proof.
  intros Hidle. unfold handleDeposit.
  destruct wallet as [wl|]; [|done]. destruct publicKey as [pk|]; [|done].
  destruct (is_nan (parseFloat (amount s)) || PrimFloat.leb (parseFloat (amount s)) zero);
    [done|].
  destruct (attempt wl (parseFloat (amount s))
              (setSuccess None (setError None (setIsDepositing true s))))
    as [[thrown s'] effects].
  by destruct thrown.
Qed.

(** X15. Past the two input checks, and with a [refetch] that does not
    throw, the handler ends in one of two states.  Either the transfer was
    created and sent: the success message is shown, no error, the amount
    field is cleared and the balance is refetched.  Or a service threw:
    its message is shown as the error, no success message, the amount
    field keeps its text and the balance is not refetched. *)
Theorem deposit_outcome_exclusive wl pk s :
  let depositAmount := parseFloat (amount s) in
  is_nan depositAmount = false ->
  PrimFloat.leb depositAmount zero = false ->
  refetch = Return tt ->
  let r := handle (Some wl) (Some pk) s in
  (error r.1 = None
   /\ success r.1
      = Some ("Successfully deposited " +:+ numberToString depositAmount
              +:+ " USDT")
   /\ amount r.1 = ""
   /\ exists transaction,
        r.2 = [CreateTransfer wl depositAmount; SendAndConfirm wl transaction;
               Refetch])
  \/ (exists err,
        error r.1 = Some err
        /\ success r.1 = None
        /\ amount r.1 = amount s
        /\ Refetch ∉ r.2).
Proof.
  intros depositAmount Hnan Hle Hrefetch r. subst r.
  unfold handleDeposit. fold depositAmount. rewrite Hnan, Hle. simpl.
  unfold depositAttempt.
  destruct (createUSDTTransferTransaction wl depositAmount) as [transaction|err].
  - destruct (sendAndConfirmTransaction wl transaction) as [sig|err].
    + rewrite Hrefetch. simpl. left. by eauto.
    + simpl. right. exists err. repeat split.
      intros Hin. repeat (apply elem_of_cons in Hin as [Hin|Hin]; [done|]).
      by apply elem_of_nil in Hin.
  - simpl. right. exists err. repeat split.
    intros Hin. repeat (apply elem_of_cons in Hin as [Hin|Hin]; [done|]).
    by apply elem_of_nil in Hin.
Qed.

End DepositForm.

(** * The further properties on the sample data *)

Module MoreRuns.

Import Sample Sample2.

Example absent_and_bare_records_example :
  processTransactions constants "Alice"
    [None; Some tx1_no_meta; Some tx1; Some tx2] (zero, ∅)
  = (50%float, {[ None ]}).
Proof. vm_compute. reflexivity. Qed.

Lemma later_record_with_seen_signature_skipped_witness :
  is_Some (meta tx2)
  /\ signature tx2_forged = signature tx2
  /\ processTransactions constants "Alice" [Some tx2; Some tx2_forged] (zero, ∅)
     = processTransactions constants "Alice" [Some tx2] (zero, ∅).
Proof.
  assert (is_Some (meta tx2)) as Hmeta by (by eexists).
  assert (signature tx2_forged = signature tx2) as Hsig by reflexivity.
  split; [exact Hmeta|]. split; [exact Hsig|].
  exact (later_record_with_seen_signature_skipped constants "Alice" tx2 tx2_forged
           [] [] [] (zero, ∅) Hmeta Hsig).
Defined.

Lemma transaction_without_incubator_credit_witness :
  let t := transfer ["Alice"; "Bob"]
             [balance 1 "Alice" "USDT" (Some 30%float)]
             [balance 2 "Bob" "USDT" (Some 30%float);
              balance 3 "Incubator" "USDC" (Some 30%float)] in
  Forall (fun post => creditsIncubator constants post = false)
         (or_empty (meta t ≫= postTokenBalances))
  /\ (processTransaction constants "Alice" (70%float, ∅) (Some t)).1 = 70%float.
Proof.
  intros t.
  assert (Forall (fun post => creditsIncubator constants post = false)
            (or_empty (meta t ≫= postTokenBalances))) as Hno
    by (repeat constructor).
  split; [exact Hno|].
  exact (transaction_without_incubator_credit constants "Alice" (70%float, ∅) t Hno).
Defined.

Lemma successful_run_requests_witness :
  let signatures :=
    map Build_ConfirmedSignatureInfo ["sig1"; "sig2"; "sig1"; "sig3"; "sig4"] in
  let txs := [Some tx1; Some tx2; Some tx1; Some tx3; Some tx4] in
  publicKey "Alice" = Return tt
  /\ getSignaturesForAddress online (INCUBATOR_WALLET constants) 1000
     = Return signatures
  /\ fetchedTransactions online signatures = Return txs
  /\ fetchStakedTotal constants publicKey online "Alice" emptyWorld
     = (Return 50%float,
        mkWorld ∅
          (CallGetSignaturesForAddress "Incubator" 1000
           :: map CallGetParsedTransaction ["sig1"; "sig2"; "sig1"; "sig3"; "sig4"])).
Proof.
  intros signatures txs.
  assert (publicKey "Alice" = Return tt) as Hkey by reflexivity.
  assert (getSignaturesForAddress online (INCUBATOR_WALLET constants) 1000
          = Return signatures) as Hlist by reflexivity.
  assert (fetchedTransactions online signatures = Return txs) as Hall
    by (vm_compute; reflexivity).
  split; [exact Hkey|]. split; [exact Hlist|]. split; [exact Hall|].
  eapply eq_trans.
  - exact (successful_run_requests constants publicKey online "Alice" emptyWorld
             signatures txs Hkey Hlist Hall).
  - vm_compute. reflexivity.
Defined.

Lemma rejection_stops_later_batches_witness :
  publicKey "Alice" = Return tt
  /\ getSignaturesForAddress flaky (INCUBATOR_WALLET constants) 1000
     = Return listing12
  /\ fetchedTransactions flaky (take (1 * batchSize) listing12)
     = Return (replicate 10 (Some tx2))
  /\ fetchedTransactions flaky (take batchSize (drop (1 * batchSize) listing12))
     = Throw "429 Too Many Requests"
  /\ fetchStakedTotal constants publicKey flaky "Alice" emptyWorld
     = (Throw "429 Too Many Requests",
        mkWorld ∅
          (CallGetSignaturesForAddress "Incubator" 1000
           :: map CallGetParsedTransaction
                (replicate 10 "sig2" ++ ["sig3"; "sig9"]))).
Proof.
  assert (publicKey "Alice" = Return tt) as Hkey by reflexivity.
  assert (getSignaturesForAddress flaky (INCUBATOR_WALLET constants) 1000
          = Return listing12) as Hlist by reflexivity.
  assert (fetchedTransactions flaky (take (1 * batchSize) listing12)
          = Return (replicate 10 (Some tx2))) as Hbefore
    by (vm_compute; reflexivity).
  assert (fetchedTransactions flaky
            (take batchSize (drop (1 * batchSize) listing12))
          = Throw "429 Too Many Requests") as Hrej by (vm_compute; reflexivity).
  split; [exact Hkey|]. split; [exact Hlist|]. split; [exact Hbefore|].
  split; [exact Hrej|].
  eapply eq_trans.
  - exact (proj1 (rejection_stops_later_batches constants publicKey flaky "Alice"
                    emptyWorld listing12 1 _ _ Hkey Hlist Hbefore Hrej)).
  - vm_compute. reflexivity.
Defined.

Lemma recomputed_total_served_within_duration_witness :
  notFresh constants 1000 (stakedAmountCache emptyWorld) "Alice"
  /\ pipelineOutcome constants publicKey online "Alice" = Return 50%float
  /\ (2000 - 1000 < CACHE_DURATION constants)%Z
  /\ getUserStakedAmount constants publicKey offline "Alice" 2000 afterAlice
     = (Return 50%float,
        mkWorld (purge constants 2000 (stakedAmountCache afterAlice))
          (rpcLog afterAlice)).
Proof.
  assert (notFresh constants 1000 (stakedAmountCache emptyWorld) "Alice")
    as Hstale by (vm_compute; exact I).
  assert (pipelineOutcome constants publicKey online "Alice" = Return 50%float)
    as Hok by (vm_compute; reflexivity).
  assert (2000 - 1000 < CACHE_DURATION constants)%Z as Hsoon
    by (vm_compute; reflexivity).
  split; [exact Hstale|]. split; [exact Hok|]. split; [exact Hsoon|].
  destruct (recomputed_total_served_within_duration constants publicKey online
              "Alice" 1000 2000 emptyWorld 50%float Hstale Hok Hsoon)
    as (_ & _ & Hagain).
  exact (Hagain offline).
Defined.

Lemma other_wallets_entries_only_swept_witness :
  "Carol" <> "Alice"
  /\ stakedAmountCache
       (getUserStakedAmount constants publicKey offline "Alice" 400000 twoUsers).2
       !! "Carol"
     = Some {| amount := 9%float; timestamp := 200000 |}.
Proof.
  assert ("Carol" <> "Alice") as Hne by discriminate.
  split; [exact Hne|].
  apply (other_wallets_entries_only_swept constants publicKey offline "Alice"
           400000 twoUsers "Carol" {| amount := 9%float; timestamp := 200000 |}
           Hne).
  split; [vm_compute; reflexivity | vm_compute; discriminate].
Defined.

Lemma cached_keys_accepted_by_constructor_witness :
  reachable constants publicKey afterAlice
  /\ stakedAmountCache afterAlice !! "Alice"
     = Some {| amount := 50%float; timestamp := 1000 |}
  /\ publicKey "Alice" = Return tt.
Proof.
  assert (reachable constants publicKey afterAlice) as Hreach
    by apply reachable_call, reachable_start.
  assert (stakedAmountCache afterAlice !! "Alice"
          = Some {| amount := 50%float; timestamp := 1000 |}) as Hentry
    by (vm_compute; reflexivity).
  split; [exact Hreach|]. split; [exact Hentry|].
  exact (cached_keys_accepted_by_constructor constants publicKey afterAlice
           "Alice" _ Hreach Hentry).
Defined.

Lemma cached_amount_is_a_computed_total_witness :
  let first := mkCall online "Alice" 1000 in
  let second := mkCall offline "Alice" 2000 in
  let w := (getUserStakedAmount constants publicKey offline "Alice" 2000
              afterAlice).2 in
  reachedBy constants publicKey [second; first] w
  /\ stakedAmountCache w !! "Alice"
     = Some {| amount := 50%float; timestamp := 1000 |}
  /\ exists later call earlier,
       [second; first] = later ++ call :: earlier
       /\ call_wallet call = "Alice"
       /\ call_now call = 1000%Z
       /\ pipelineOutcome constants publicKey (call_connection call) "Alice"
          = Return 50%float
       /\ Forall (fun call' =>
                    call_wallet call' = "Alice" ->
                    (call_now call' - 1000 < CACHE_DURATION constants)%Z
                    \/ exists e,
                         pipelineOutcome constants publicKey
                           (call_connection call') "Alice" = Throw e)
                 later.
Proof.
  intros first second w.
  assert (reachedBy constants publicKey [second; first] w) as Hreach.
  { apply (reachedBy_call constants publicKey [first] afterAlice second).
    apply (reachedBy_call constants publicKey [] emptyWorld first).
    apply reachedBy_start. }
  assert (stakedAmountCache w !! "Alice"
          = Some {| amount := 50%float; timestamp := 1000 |}) as Hentry
    by (vm_compute; reflexivity).
  split; [exact Hreach|]. split; [exact Hentry|].
  exact (cached_amount_is_a_computed_total constants publicKey [second; first] w
           "Alice" _ Hreach Hentry).
Defined.

Lemma wallet_in_no_transaction_total_zero_witness :
  let signatures := map Build_ConfirmedSignatureInfo ["sig4"; "sig3"; "unknown"] in
  let txs := [Some tx4; Some tx3; None] in
  notFresh constants 1000 (stakedAmountCache emptyWorld) "Alice"
  /\ publicKey "Alice" = Return tt
  /\ getSignaturesForAddress bobOnly (INCUBATOR_WALLET constants) 1000
     = Return signatures
  /\ fetchedTransactions bobOnly signatures = Return txs
  /\ neverFromUser "Alice" txs
  /\ (getUserStakedAmount constants publicKey bobOnly "Alice" 1000 emptyWorld).1
     = Return zero.
Proof.
  intros signatures txs.
  assert (notFresh constants 1000 (stakedAmountCache emptyWorld) "Alice")
    as Hstale by (vm_compute; exact I).
  assert (publicKey "Alice" = Return tt) as Hkey by reflexivity.
  assert (getSignaturesForAddress bobOnly (INCUBATOR_WALLET constants) 1000
          = Return signatures) as Hlist by reflexivity.
  assert (fetchedTransactions bobOnly signatures = Return txs) as Hall
    by (vm_compute; reflexivity).
  assert (neverFromUser "Alice" txs) as Hnever by (repeat constructor).
  split; [exact Hstale|]. split; [exact Hkey|]. split; [exact Hlist|].
  split; [exact Hall|]. split; [exact Hnever|].
  exact (proj1 (wallet_in_no_transaction_total_zero constants publicKey bobOnly
                  "Alice" 1000 emptyWorld signatures txs
                  Hstale Hkey Hlist Hall Hnever)).
Defined.

Lemma deposit_calls_require_valid_input_witness :
  (form (Some "phantom") (Some "key") (idle "25")).2 <> []
  /\ PrimFloat.leb (parse "25") zero = false
  /\ exists rest,
       (form (Some "phantom") (Some "key") (idle "25")).2
       = Incubator.CreateTransfer "phantom" 25%float :: rest.
Proof.
  assert ((form (Some "phantom") (Some "key") (idle "25")).2 <> []) as Hcalls
    by (vm_compute; discriminate).
  split; [exact Hcalls|].
  destruct (deposit_calls_require_valid_input string string string parse show
              create send (Return tt) (Some "phantom") (Some "key") (idle "25")
              Hcalls) as (_ & _ & Hle & wl & rest & Hwl & Hrest).
  split; [exact Hle|]. exists rest. injection Hwl as <-. exact Hrest.
Defined.

Lemma deposit_never_leaves_isDepositing_witness :
  Incubator.isDepositing (idle "25") = false
  /\ Incubator.isDepositing (form (Some "locked") (Some "key") (idle "25")).1
     = false.
Proof.
  split; [reflexivity|].
  apply (deposit_never_leaves_isDepositing string string string parse show
           create send (Return tt) (Some "locked") (Some "key") (idle "25")).
  reflexivity.
Defined.

Lemma deposit_outcome_exclusive_witness :
  is_nan (parse "25") = false
  /\ PrimFloat.leb (parse "25") zero = false
  /\ Incubator.error (form (Some "locked") (Some "key") (idle "25")).1
     = Some "Wallet is locked"
  /\ Incubator.amount (form (Some "locked") (Some "key") (idle "25")).1 = "25".
Proof.
  assert (is_nan (parse "25") = false) as Hnan by reflexivity.
  assert (PrimFloat.leb (parse "25") zero = false) as Hle by reflexivity.
  split; [exact Hnan|]. split; [exact Hle|].
  destruct (deposit_outcome_exclusive string string string parse show create
              send (Return tt) "locked" "key" (idle "25") Hnan Hle eq_refl)
    as [(Herr & _) | (err & Herr & _ & Hamount & _)].
  - vm_compute in Herr. discriminate.
  - split; [vm_compute; reflexivity | exact Hamount].
Defined.

End MoreRuns.
